(** * design-right-sizer: the request pipeline of [app.py]

    A shallow embedding of the Slack bot of [src/app.py]: the string
    helpers ([is_pdf_url], [extract_url]), the three stage functions
    ([download_file], [optimize_pdf], [upload_to_drive]) and the event
    handler [handle_mentions], followed by the properties of the
    specification that concern them.

    Python [str] values are modelled as [string]; a character is the code
    point it denotes, so the development covers texts whose code points are
    below 256 (Latin-1).  Every call that leaves the process (Slack, HTTP,
    Ghostscript, Drive, the logger) is recorded, in order, in a trace. *)

From Stdlib Require Import String Ascii List Bool Arith Lia DecimalString.
Import ListNotations.
Open Scope string_scope.
Open Scope bool_scope.

(** ** Python string operations used by the program *)

Module Py.

(** [c in s] for a one-character [c]. *)
Fixpoint has_char (c : ascii) (s : string) : bool :=
  match s with
  | "" => false
  | String d t => Ascii.eqb c d || has_char c t
  end.

(** [needle in hay]. *)
Fixpoint contains (needle hay : string) : bool :=
  String.prefix needle hay
  || match hay with
     | "" => false
     | String _ t => contains needle t
     end.

(** [s[n:]]. *)
Fixpoint drop (n : nat) (s : string) : string :=
  match n, s with
  | O, _ => s
  | S _, "" => ""
  | S k, String _ t => drop k t
  end.

(** [s[:n]]. *)
Fixpoint take (n : nat) (s : string) : string :=
  match n, s with
  | O, _ => ""
  | S _, "" => ""
  | S k, String c t => String c (take k t)
  end.

(** [s.replace(old, new)] for a non-empty [old] (every call site passes a
    non-empty literal): a left-to-right scan that replaces each occurrence
    it meets and resumes after it.  [skip] counts the characters of the
    occurrence just replaced that are still to be passed over. *)
Fixpoint replace_from (old new : string) (skip : nat) (s : string) : string :=
  match s with
  | "" => ""
  | String c t =>
      match skip with
      | S k => replace_from old new k t
      | O =>
          if String.prefix old s
          then new ++ replace_from old new (String.length old - 1) t
          else String c (replace_from old new 0 t)
      end
  end.

Definition replace (old new s : string) : string := replace_from old new 0 s.

(** [str.lower] on one Latin-1 code point: A-Z and the accented capitals
    U+00C0..U+00DE (U+00D7, the multiplication sign, excepted) move up by
    32, everything else stays. *)
Definition lower_char (c : ascii) : ascii :=
  let n := nat_of_ascii c in
  if ((65 <=? n)%nat && (n <=? 90)%nat)
     || ((192 <=? n)%nat && (n <=? 222)%nat && negb (n =? 215)%nat)
  then ascii_of_nat (n + 32)
  else c.

Fixpoint lower (s : string) : string :=
  match s with
  | "" => ""
  | String c t => String (lower_char c) (lower t)
  end.

(** [s.endswith(suf)]. *)
Definition endswith (suf s : string) : bool :=
  (String.length suf <=? String.length s)%nat
  && String.eqb (drop (String.length s - String.length suf) s) suf.

(** [s.find(c)] for a one-character [c]: [None] stands for -1. *)
Fixpoint find_char (c : ascii) (s : string) : option nat :=
  match s with
  | "" => None
  | String d t =>
      if Ascii.eqb c d then Some 0
      else option_map S (find_char c t)
  end.

(** [s.split(c)[-1]] for a one-character separator: the text after the
    last separator, or all of [s] when there is none.  [acc] is the
    segment being read. *)
Fixpoint last_segment_from (c : ascii) (acc s : string) : string :=
  match s with
  | "" => acc
  | String d t =>
      if Ascii.eqb c d then last_segment_from c "" t
      else last_segment_from c (acc ++ String d "") t
  end.

Definition last_segment (c : ascii) (s : string) : string :=
  last_segment_from c "" s.

(** [s.split(c, 1)]: the text before the first [c] and the text after it. *)
Fixpoint split_once (c : ascii) (s : string) : string * string :=
  match s with
  | "" => ("", "")
  | String d t =>
      if Ascii.eqb c d then ("", t)
      else let '(a, b) := split_once c t in (String d a, b)
  end.

(** Whitespace as the [\s] class of [re] sees it on a [str] pattern
    ([str.isspace]): TAB..CR, FS..US, space, NEL and NBSP below 256. *)
Definition isspace (c : ascii) : bool :=
  let n := nat_of_ascii c in
  ((9 <=? n)%nat && (n <=? 13)%nat) || ((28 <=? n)%nat && (n <=? 32)%nat)
  || (n =? 133)%nat || (n =? 160)%nat.

(** The longest prefix of [s] without whitespace: what [[^\s]+] consumes. *)
Fixpoint nonspace_run (s : string) : string :=
  match s with
  | "" => ""
  | String c t => if isspace c then "" else String c (nonspace_run t)
  end.

End Py.

(** ** Exceptions and results *)

(** The handler tells [SlackApiError] from every other [Exception]; the
    text is what [str(e)] prints. *)
Inductive Exn : Type :=
| SlackApiError (msg : string)
| PyError (cls msg : string).

Definition exn_str (e : Exn) : string :=
  match e with
  | SlackApiError m => m
  | PyError _ m => m
  end.

Inductive Res (A : Type) : Type :=
| Ret (a : A)
| Raise (e : Exn).
Arguments Ret {A} a.
Arguments Raise {A} e.

(** ** [urllib.parse.urlparse]

    The six components, computed as CPython's [urlsplit] and [urlparse] do:
    scheme up to the first colon when it is made of scheme characters,
    authority after [//] up to the first of [/ ? #], then fragment, query
    and, for the schemes that use them, the [;] parameters of the last
    path segment.  An authority with only one kind of square bracket
    raises [ValueError]; the check of a host inside a matched pair of
    brackets differs between interpreter versions and is a parameter.  The
    NFKC check of the authority never fires on code points below 256. *)

Module Url.

Record ParseResult : Type := {
  scheme : string;
  netloc : string;
  path : string;
  params : string;
  query : string;
  fragment : string
}.

Definition is_alpha (c : ascii) : bool :=
  let n := nat_of_ascii c in
  ((65 <=? n)%nat && (n <=? 90)%nat) || ((97 <=? n)%nat && (n <=? 122)%nat).

Definition is_digit (c : ascii) : bool :=
  let n := nat_of_ascii c in (48 <=? n)%nat && (n <=? 57)%nat.

Definition scheme_char (c : ascii) : bool :=
  is_alpha c || is_digit c || Ascii.eqb c "+" || Ascii.eqb c "-" || Ascii.eqb c ".".

Fixpoint all_chars (p : ascii -> bool) (s : string) : bool :=
  match s with
  | "" => true
  | String c t => p c && all_chars p t
  end.

(** [url.lstrip(_WHATWG_C0_CONTROL_OR_SPACE)]. *)
Fixpoint lstrip_c0 (s : string) : string :=
  match s with
  | "" => ""
  | String c t => if (nat_of_ascii c <=? 32)%nat then lstrip_c0 t else s
  end.

(** Removal of TAB, CR and LF ([_UNSAFE_URL_BYTES_TO_REMOVE]). *)
Fixpoint remove_unsafe (s : string) : string :=
  match s with
  | "" => ""
  | String c t =>
      let n := nat_of_ascii c in
      if (n =? 9)%nat || (n =? 13)%nat || (n =? 10)%nat then remove_unsafe t
      else String c (remove_unsafe t)
  end.

(** The scheme and what follows it. *)
Definition split_scheme (url : string) : string * string :=
  match Py.find_char ":" url with
  | Some (S i) =>
      match url with
      | String c0 _ =>
          if is_alpha c0 && all_chars scheme_char (Py.take (S i) url)
          then (Py.lower (Py.take (S i) url), Py.drop (S (S i)) url)
          else ("", url)
      | "" => ("", url)
      end
  | _ => ("", url)
  end.

(** [_splitnetloc(url, 2)] on a text that starts with [//]: the authority
    ends at the first of [/ ? #]. *)
Fixpoint until_delim (s : string) : string * string :=
  match s with
  | "" => ("", "")
  | String c t =>
      if Ascii.eqb c "/" || Ascii.eqb c "?" || Ascii.eqb c "#" then ("", s)
      else let '(a, b) := until_delim t in (String c a, b)
  end.

(** [netloc.partition('[')[2].partition(']')[0]]. *)
Definition bracketed_host (netloc : string) : string :=
  fst (Py.split_once "]" (snd (Py.split_once "[" netloc))).

Definition uses_params : list string :=
  [""; "ftp"; "hdl"; "prospero"; "http"; "imap"; "https"; "shttp"; "rtsp";
   "rtspu"; "sip"; "sips"; "mms"; "sftp"; "tel"].

Definition in_list (s : string) (l : list string) : bool :=
  existsb (String.eqb s) l.

(** [_splitparams]: the first [;] at or after the last [/]. *)
Fixpoint rfind_slash (s : string) : option nat :=
  match s with
  | "" => None
  | String c t =>
      match rfind_slash t with
      | Some i => Some (S i)
      | None => if Ascii.eqb c "/" then Some 0 else None
      end
  end.

Definition splitparams (url : string) : string * string :=
  match rfind_slash url with
  | Some r =>
      match Py.find_char ";" (Py.drop r url) with
      | Some i => (Py.take (r + i) url, Py.drop (S (r + i)) url)
      | None => (url, "")
      end
  | None =>
      (* no slash: [i] is -1 when there is no semicolon either, and the
         slices are then [url[:-1]] and [url[0:]]; [urlparse] only calls
         this with a semicolon present. *)
      match Py.find_char ";" url with
      | Some i => (Py.take i url, Py.drop (S i) url)
      | None => (Py.take (String.length url - 1) url, url)
      end
  end.

(** The splitting itself, which never fails. *)
Definition components (url0 : string) : ParseResult :=
  let url := remove_unsafe (lstrip_c0 url0) in
  let '(sch, url) := split_scheme url in
  let '(loc, url) :=
    if String.prefix "//" url then until_delim (Py.drop 2 url) else ("", url) in
  let '(url, frag) :=
    if Py.has_char "#" url then Py.split_once "#" url else (url, "") in
  let '(url, qry) :=
    if Py.has_char "?" url then Py.split_once "?" url else (url, "") in
  let '(url, prm) :=
    if in_list sch uses_params && Py.has_char ";" url
    then splitparams url else (url, "") in
  {| scheme := sch; netloc := loc; path := url;
     params := prm; query := qry; fragment := frag |}.

(** The checks of the authority, which raise [ValueError]. *)
Definition check_netloc (check_bracketed_host : string -> option Exn)
    (loc : string) : option Exn :=
  let lb := Py.has_char "[" loc in
  let rb := Py.has_char "]" loc in
  if (lb && negb rb) || (rb && negb lb)
  then Some (PyError "ValueError" "Invalid IPv6 URL")
  else if lb && rb then check_bracketed_host (bracketed_host loc)
  else None.

Definition urlparse (check_bracketed_host : string -> option Exn)
    (url : string) : Res ParseResult :=
  let parsed := components url in
  match check_netloc check_bracketed_host (netloc parsed) with
  | Some e => Raise e
  | None => Ret parsed
  end.

End Url.

(** ** The two URL helpers of [app.py] *)

(** [is_pdf_url]: [urlparse(url).path.lower().endswith(".pdf")]. *)
Definition is_pdf_url (chk : string -> option Exn) (url : string) : Res bool :=
  match Url.urlparse chk url with
  | Ret parsed => Ret (Py.endswith ".pdf" (Py.lower (Url.path parsed)))
  | Raise e => Raise e
  end.

(** One attempt of the pattern [(https?://[^\s]+)] at the start of [s]. *)
Definition match_here (s : string) : option string :=
  if String.prefix "https://" s then
    match Py.nonspace_run (Py.drop 8 s) with
    | "" => None
    | r => Some ("https://" ++ r)
    end
  else if String.prefix "http://" s then
    match Py.nonspace_run (Py.drop 7 s) with
    | "" => None
    | r => Some ("http://" ++ r)
    end
  else None.

(** [extract_url]: [re.search] tries the pattern at each position from the
    left and returns the first match, [None] when there is none. *)
Fixpoint extract_url (text : string) : option string :=
  match match_here text with
  | Some u => Some u
  | None =>
      match text with
      | "" => None
      | String _ t => extract_url t
      end
  end.

(** ** The world outside the process *)

(** A rich block of a Slack message. *)
Inductive Block : Type :=
| SectionBlock (mrkdwn : string)
| ImageBlock (image_url alt_text : string).

(** The arguments of one [say(...)]: [None] where the keyword is absent. *)
Record Message : Type := {
  msg_text : string;
  msg_thread_ts : option string;
  msg_blocks : option (list Block)
}.

(** An object of the Drive: a folder or an uploaded file. *)
Record DriveFile : Type := {
  df_id : string;
  df_name : string;
  df_mime : string;
  df_parents : list string;
  df_trashed : bool;
  df_anyone_reader : bool
}.

(** The calls that leave the process. *)
Inductive Call : Type :=
| LogInfo (line : string)
| LogError (line : string)
| Print (line : string)
| UsersInfo (user : string)
| ConversationsInfo (channel : string)
| Say (m : Message)
| HttpGet (url : string) (headers : list (string * string))
| WriteFile (path content : string)
| RunGs (argv : list string)
| LoadCredentials (path : string)
| RunLocalServerFlow (client_secret : string)
| BuildService
| FilesList (q : string)
| FilesCreateFolder (name : string)
| FilesCreateMedia (name : string) (parents : list string) (path : string)
| PermissionsCreate (file_id : string).

(** What the run does not decide: which external call fails and how (the
    call made at position [n] of the trace raises [e] when [fault n] is
    [Some e]), what Slack and the web answer, the configuration, and the
    interpreter's check of a bracketed host. *)
Record Env : Type := {
  fault : nat -> option Exn;
  user_name : string -> string;
  channel_name : string -> string;
  http_response : string -> nat * string;
  SLACK_BOT_TOKEN : string;
  GOOGLE_CLIENT_SECRET : string;
  creds_json : string;
  fresh_id : nat -> string;
  check_bracketed_host : string -> option Exn
}.

(** What the run changes: the trace of calls with their outcome ([None]
    for a call that returned), the objects of the Drive, and the token
    file. *)
Record State : Type := {
  trace : list (Call * option Exn);
  drive : list DriveFile;
  token_file : option string
}.

Definition log (st : State) (c : Call) (o : option Exn) : State :=
  {| trace := trace st ++ [(c, o)];
     drive := drive st;
     token_file := token_file st |}.

Definition set_drive (st : State) (d : list DriveFile) : State :=
  {| trace := trace st; drive := d; token_file := token_file st |}.

Definition set_token_file (st : State) (t : option string) : State :=
  {| trace := trace st; drive := drive st; token_file := t |}.

(** ** Computations: state passing with exceptions *)

Definition M (A : Type) : Type := Env -> State -> Res A * State.

Definition ret {A} (a : A) : M A := fun _ st => (Ret a, st).

Definition raise {A} (e : Exn) : M A := fun _ st => (Raise e, st).

Definition bind {A B} (m : M A) (k : A -> M B) : M B :=
  fun env st =>
    match m env st with
    | (Ret a, st') => k a env st'
    | (Raise e, st') => (Raise e, st')
    end.

(** [try: m except Exception as e: h e]. *)
Definition try_except {A} (m : M A) (h : Exn -> M A) : M A :=
  fun env st =>
    match m env st with
    | (Ret a, st') => (Ret a, st')
    | (Raise e, st') => h e env st'
    end.

Declare Scope prog_scope.
Delimit Scope prog_scope with prog.
Notation "x <- c1 ;; c2" := (bind c1 (fun x => c2))
  (at level 61, c1 at next level, right associativity) : prog_scope.
Notation "c1 ;; c2" := (bind c1 (fun _ => c2))
  (at level 61, right associativity) : prog_scope.
Open Scope prog_scope.

Definition ask {A} (f : Env -> A) : M A := fun env st => (Ret (f env), st).

Definition get {A} (f : State -> A) : M A := fun _ st => (Ret (f st), st).

Definition modify (f : State -> State) : M unit := fun _ st => (Ret tt, f st).

(** An external call: recorded, and failing when the environment says so. *)
Definition call (c : Call) : M unit :=
  fun env st =>
    match fault env (List.length (trace st)) with
    | Some e => (Raise e, log st c (Some e))
    | None => (Ret tt, log st c None)
    end.

(** A call that does not fail (the logger, [print]). *)
Definition emit (c : Call) : M unit := fun _ st => (Ret tt, log st c None).

Definition lift {A} (r : Res A) : M A :=
  match r with
  | Ret a => ret a
  | Raise e => raise e
  end.

Definition say (m : Message) : M unit := call (Say m).

(** ** The stage functions *)

(** [download_file], lines 43-52.  [url] is [None] when the caller passes
    Python's [None]. *)
Definition download_file (url : option string) (output_path : string) : M unit :=
  match url with
  | None => raise (PyError "TypeError" "argument of type 'NoneType' is not iterable")
  | Some url =>
      let url :=
        if Py.contains "dropbox.com" url
        then Py.replace "www.dropbox.com" "dl.dropboxusercontent.com"
               (Py.replace "?d1=0" "?d1=1" url)
        else url in
      token <- ask SLACK_BOT_TOKEN ;;
      let headers :=
        if Py.contains "slack.com" url
        then [("Authorization", "Bearer " ++ token)]
        else [] in
      call (HttpGet url headers) ;;
      response <- ask (fun env => http_response env url) ;;
      (if (400 <=? fst response)%nat && (fst response <? 600)%nat
       then raise (PyError "HTTPError" "raise_for_status")
       else ret tt) ;;
      call (WriteFile output_path (snd response))
  end.

(** [optimize_pdf], lines 55-65: [check=True] turns a non-zero exit into an
    exception. *)
Definition optimize_pdf (input_file output_file : string) : M unit :=
  call (RunGs ["gs"; "-sDEVICE=pdfwrite"; "-dCompatibilityLevel=1.4";
               "-dPDFSETTINGS=/screen"; "-dNOPAUSE"; "-dBATCH";
               "-sOutputFile=" ++ output_file; input_file]).

Definition TOKEN_PATH : string := "token.json".

(** [get_drive_service], lines 70-79. *)
Definition get_drive_service : M unit :=
  tok <- get token_file ;;
  match tok with
  | Some _ => call (LoadCredentials TOKEN_PATH)
  | None =>
      secret <- ask GOOGLE_CLIENT_SECRET ;;
      call (RunLocalServerFlow secret) ;;
      json <- ask creds_json ;;
      call (WriteFile TOKEN_PATH json) ;;
      modify (fun st => set_token_file st (Some json))
  end ;;
  call BuildService.

Definition folder_mime : string := "application/vnd.google-apps.folder".

(** The query text of line 86. *)
Definition folder_query (channel_name : string) : string :=
  "name='" ++ channel_name ++ "' and mimeType='" ++ folder_mime
  ++ "' and trashed=False".

(** The Drive's answer to a search.  The service is not part of the
    repository; its search is modelled for the one query shape the program
    sends: an object answers the query when the query is the one built from
    the object's own name, the object is a folder and it is not in the
    bin.  (Slack handles and channel names carry no quote character.) *)
Definition answers (q : string) (f : DriveFile) : bool :=
  String.eqb q (folder_query (df_name f))
  && String.eqb (df_mime f) folder_mime
  && negb (df_trashed f).

Definition files_list (q : string) : M (list DriveFile) :=
  call (FilesList q) ;;
  d <- get drive ;;
  ret (filter (answers q) d).

Definition new_object (id name mime : string) (parents : list string) : DriveFile :=
  {| df_id := id; df_name := name; df_mime := mime; df_parents := parents;
     df_trashed := false; df_anyone_reader := false |}.

Definition files_create (c : Call) (name mime : string) (parents : list string)
    : M string :=
  call c ;;
  d <- get drive ;;
  id <- ask (fun env => fresh_id env (List.length d)) ;;
  modify (fun st => set_drive st (d ++ [new_object id name mime parents])) ;;
  ret id.

Definition share (id : string) (f : DriveFile) : DriveFile :=
  if String.eqb (df_id f) id
  then {| df_id := df_id f; df_name := df_name f; df_mime := df_mime f;
          df_parents := df_parents f; df_trashed := df_trashed f;
          df_anyone_reader := true |}
  else f.

Definition permissions_create (id : string) : M unit :=
  call (PermissionsCreate id) ;;
  modify (fun st => set_drive st (map (share id) (drive st))).

(** Folder resolution, lines 85-94: the identity of the folder the upload
    goes to. *)
Definition resolve_folder (channel_name : string) : M string :=
  items <- files_list (folder_query channel_name) ;;
  match items with
  | f :: _ => ret (df_id f)
  | [] => files_create (FilesCreateFolder channel_name) channel_name folder_mime []
  end.

(** [upload_to_drive], lines 83-100. *)
Definition upload_to_drive (file_path filename channel_name : string) : M string :=
  get_drive_service ;;
  folder_id <- resolve_folder channel_name ;;
  file_id <- files_create (FilesCreateMedia filename [folder_id] file_path)
               filename "application/pdf" [folder_id] ;;
  permissions_create file_id ;;
  ret ("https://drive.google.com/file/d/" ++ file_id ++ "/view").

(** ** The inbound event *)

(** A file descriptor of the event: [dict.get] gives [None] for a key that
    is absent. *)
Record FileInfo : Type := {
  fi_filetype : option string;
  fi_url_private_download : option string;
  fi_name : option string
}.

(** An [app_mention] event.  Slack always sends [channel], [user] and
    [ts]; [files] is empty and [text] is the empty string when the key is
    absent ([event.get] with a default). *)
Record Event : Type := {
  ev_channel : string;
  ev_user : string;
  ev_ts : string;
  ev_files : list FileInfo;
  ev_text : string
}.

(** ** The replies *)

Definition plain (text : string) (thread_ts : option string) : Message :=
  {| msg_text := text; msg_thread_ts := thread_ts; msg_blocks := None |}.

Definition templated (text : string) (ts : string) (mrkdwn image alt : string)
    : Message :=
  {| msg_text := text;
     msg_thread_ts := Some ts;
     msg_blocks := Some [SectionBlock mrkdwn; ImageBlock image alt] |}.

(** Line 127. *)
Definition msg_too_many : Message :=
  plain "Easy now... only one PDF at a time there cowboy..." None.

(** Lines 131-148. *)
Definition msg_unsupported (ts : string) : Message :=
  templated "that doesn't work... (say text)" ts
    "that doesn't work... no, just not gonna work..."
    "https://media0.giphy.com/media/3ofT5Mn9OWRL8PBR3G/giphy.gif?cid=6104955ekf2b8za2cpu76xsyw30rkt6t0un1zv34sjadqej6&ep=v1_gifs_translate&rid=giphy.gif&ct=g"
    "that doesn't work... (alt text) ".

(** Lines 159-176. *)
Definition msg_wrong_link (ts : string) : Message :=
  templated "that doesn't work... (say text)" ts
    "this is not the right kind of link... "
    "https://media1.giphy.com/media/rGEIoqUoIMPylWCwpk/giphy.gif?cid=6104955ep67fn4nxcm80fdb4w0u2jp7oy0n1yxer3d00b8fy&ep=v1_gifs_translate&rid=giphy.gif&ct=g"
    "wrong link".

(** Lines 185-202: the "work started" acknowledgement. *)
Definition msg_working (ts : string) : Message :=
  templated "working on that... " ts
    "working on that... "
    "https://media3.giphy.com/media/tQliIp3sn1T44/giphy-downsized.gif?cid=6104955etizadp34ibga9hdrby8n5m00ckb3cgw2lx8767uk&ep=v1_gifs_translate&rid=giphy-downsized.gif&ct=g"
    "compressing plans".

(** Line 206. *)
Definition msg_success (ts drive_link : string) : Message :=
  plain ("Here's your optimized file: <" ++ drive_link ++ "|Download it here>")
    (Some ts).

(** Lines 210 and 231: the text of the exception, not threaded. *)
Definition msg_slack_error (e : Exn) : Message :=
  plain ("Something went wrong while processing the file: " ++ exn_str e) None.

Definition msg_unexpected (e : Exn) : Message :=
  plain ("An unexpected error occurred: " ++ exn_str e) None.

(** Lines 211-228 and 232-249: the generic "problem occurred"
    acknowledgement. *)
Definition msg_problem (ts : string) : Message :=
  templated "that doesn't work... (say text)" ts
    "uh oh... we have a problem "
    "https://media0.giphy.com/media/4Hx5nJBfi8FzFWxztb/giphy.gif?cid=6104955edjxje2ph9k20j8jcftmvubvf7xkrjozeg84x19nv&ep=v1_gifs_translate&rid=giphy.gif&ct=g"
    "we have a problem".

(** ** The handler *)

(** The three rejections of the input. *)
Inductive Reason : Type :=
| TooManyAttachments
| UnsupportedType
| NoUsableLink.

(** The source a request resolves to: [file_url] and [original_filename],
    either of which is Python's [None] when the attachment lacks the key. *)
Record Source : Type := {
  file_url : option string;
  original_filename : option string
}.

(** The return points of [handle_mentions]: the end of the [try] body, a
    [return] after a rejection, and the end of an [except] clause. *)
Inductive Exit : Type :=
| Done
| Rejected (r : Reason)
| Failed (e : Exn).

(** Lines 112-121: the name of the destination folder. *)
Definition folder_name_of (event : Event) : M string :=
  let channel_id := ev_channel event in
  let user_id := ev_user event in
  if String.prefix "D" channel_id
  then call (UsersInfo user_id) ;; ask (fun env => user_name env user_id)
  else call (ConversationsInfo channel_id) ;;
       ask (fun env => channel_name env channel_id).

Definition str_of_option (o : option string) : string :=
  match o with
  | Some s => s
  | None => "None"
  end.

Definition option_eqb (a b : option string) : bool :=
  match a, b with
  | Some x, Some y => String.eqb x y
  | None, None => true
  | _, _ => false
  end.

(** Lines 124-180: the attachment when there is one, else the first link of
    the text; a rejection has sent its reply. *)
Definition resolve (event : Event) : M (Reason + Source) :=
  let files := ev_files event in
  match files with
  | file_info :: _ =>
      if (1 <? List.length files)%nat then
        say msg_too_many ;;
        ret (inl TooManyAttachments)
      else if negb (option_eqb (fi_filetype file_info) (Some "pdf")) then
        say (msg_unsupported (ev_ts event)) ;;
        ret (inl UnsupportedType)
      else
        ret (inr {| file_url := fi_url_private_download file_info;
                    original_filename := fi_name file_info |})
  | [] =>
      let text := ev_text event in
      let url := extract_url text in
      emit (Print ("extracted url:  " ++ str_of_option url)) ;;
      unusable <-
        match url with
        | None => ret true
        | Some u =>
            chk <- ask check_bracketed_host ;;
            pdf <- lift (is_pdf_url chk u) ;;
            ret (negb pdf)
        end ;;
      if unusable : bool then
        say (msg_wrong_link (ev_ts event)) ;;
        ret (inl NoUsableLink)
      else
        ret (inr {| file_url := url;
                    original_filename :=
                      option_map (Py.last_segment "/") url |})
  end.

(** Line 182. *)
Definition optimized_name (original_filename : string) : string :=
  Py.replace ".pdf" "" original_filename ++ "_cmp.pdf".

(** Lines 182-206: download, acknowledge, compress, publish, reply. *)
Definition process (event : Event) (folder_name : string) (src : Source)
    : M unit :=
  name <-
    match original_filename src with
    | Some n => ret (optimized_name n)
    | None => raise (PyError "AttributeError"
                       "'NoneType' object has no attribute 'replace'")
    end ;;
  download_file (file_url src) "/tmp/original.pdf" ;;
  say (msg_working (ev_ts event)) ;;
  optimize_pdf "/tmp/original.pdf" "/tmp/original_cmp.pdf" ;;
  drive_link <- upload_to_drive "/tmp/original_cmp.pdf" name folder_name ;;
  say (msg_success (ev_ts event) drive_link).

(** The body of the [try], lines 112-206. *)
Definition pipeline (event : Event) : M Exit :=
  folder_name <- folder_name_of event ;;
  r <- resolve event ;;
  match r with
  | inl reason => ret (Rejected reason)
  | inr src => process event folder_name src ;; ret Done
  end.

(** The two [except] clauses, lines 208-249. *)
Definition on_exception (event : Event) (e : Exn) : M Exit :=
  match e with
  | SlackApiError _ =>
      emit (LogError ("Slack API error: " ++ exn_str e)) ;;
      say (msg_slack_error e) ;;
      say (msg_problem (ev_ts event)) ;;
      ret (Failed e)
  | PyError _ _ =>
      emit (LogError ("Unhandled exception: " ++ exn_str e)) ;;
      say (msg_unexpected e) ;;
      say (msg_problem (ev_ts event)) ;;
      ret (Failed e)
  end.

(** [handle_mentions], lines 107-249.  The result is [Raise e] when [e]
    leaves the handler. *)
Definition handle_mentions (event : Event) : M Exit :=
  emit (LogInfo "app_mention received") ;;
  try_except (pipeline event) (on_exception event).

(** A run of the handler on a fresh trace. *)
Definition start (d : list DriveFile) (tok : option string) : State :=
  {| trace := []; drive := d; token_file := tok |}.

Definition run (env : Env) (event : Event) (d : list DriveFile)
    (tok : option string) : Res Exit * State :=
  handle_mentions event env (start d tok).

(** ** Reading a trace *)

(** The replies that were delivered, in order. *)
Fixpoint sent (tr : list (Call * option Exn)) : list Message :=
  match tr with
  | [] => []
  | (Say m, None) :: t => m :: sent t
  | _ :: t => sent t
  end.

(** The replies the handler tried to send, delivered or not. *)
Fixpoint said (tr : list (Call * option Exn)) : list Message :=
  match tr with
  | [] => []
  | (Say m, _) :: t => m :: said t
  | _ :: t => said t
  end.

(** The downloads that were issued: locator and headers. *)
Fixpoint gets (tr : list (Call * option Exn))
    : list (string * list (string * string)) :=
  match tr with
  | [] => []
  | (HttpGet u h, _) :: t => (u, h) :: gets t
  | _ :: t => gets t
  end.

(** ** Sample worlds and events *)

Definition decimal (n : nat) : string := NilEmpty.string_of_uint (Nat.to_uint n).

(** A world with the given failures and fixed answers. *)
Definition world (f : nat -> option Exn) : Env :=
  {| fault := f;
     user_name := fun u => "user-" ++ u;
     channel_name := fun c => "chan-" ++ c;
     http_response := fun _ => (200, "%PDF-1.4");
     SLACK_BOT_TOKEN := "xoxb-bot-token";
     GOOGLE_CLIENT_SECRET := "client_secret.json";
     creds_json := "{}";
     fresh_id := fun k => "obj" ++ decimal k;
     check_bracketed_host := fun _ => None |}.

(** No call fails. *)
Definition quiet : Env := world (fun _ => None).

(** Every call from position [n] of the trace on raises [e]. *)
Definition failing_from (n : nat) (e : Exn) : Env :=
  world (fun k => if (n <=? k)%nat then Some e else None).

Definition mention (text : string) (files : list FileInfo) : Event :=
  {| ev_channel := "C024BE91L"; ev_user := "U2147483697";
     ev_ts := "1355517523.000005"; ev_files := files; ev_text := text |}.

Definition attachment (filetype name url : string) : FileInfo :=
  {| fi_filetype := Some filetype;
     fi_url_private_download := Some url;
     fi_name := Some name |}.

(** ** What the specification calls things *)

(** The terminal states of the controller: a rejection is a failure. *)
Inductive Terminal : Type :=
| StDone
| StFailed.

Definition terminal (x : Exit) : Terminal :=
  match x with
  | Done => StDone
  | Rejected _ => StFailed
  | Failed _ => StFailed
  end.

(** The reply that goes with a rejection. *)
Definition msg_rejection (event : Event) (r : Reason) : Message :=
  match r with
  | TooManyAttachments => msg_too_many
  | UnsupportedType => msg_unsupported (ev_ts event)
  | NoUsableLink => msg_wrong_link (ev_ts event)
  end.

(** The reply that carries the text of a caught exception. *)
Definition msg_cause (e : Exn) : Message :=
  match e with
  | SlackApiError _ => msg_slack_error e
  | PyError _ _ => msg_unexpected e
  end.

(** [x] occurs in [l] once and only once. *)
Definition exactly_once {A} (x : A) (l : list A) : Prop :=
  exists pre post, l = (pre ++ x :: post)%list /\ ~ In x pre /\ ~ In x post.

(** The state in which the [try] body starts. *)
Definition entered (d : list DriveFile) (tok : option string) : State :=
  log (start d tok) (LogInfo "app_mention received") None.

(** The path component of a locator, taken without the checks that make
    the parser raise. *)
Definition path_of (url : string) : string := Url.path (Url.components url).

Definition has_pdf_suffix (url : string) : bool :=
  Py.endswith ".pdf" (Py.lower (path_of url)).

(** * The vocabulary of the properties *)

(** *** The request of [download_file] *)

(** The locator [download_file] fetches: line 45. *)
Definition fetched (url : string) : string :=
  if Py.contains "dropbox.com" url
  then Py.replace "www.dropbox.com" "dl.dropboxusercontent.com"
         (Py.replace "?d1=0" "?d1=1" url)
  else url.

(** The headers it sends: lines 46-48. *)
Definition headers_for (env : Env) (url : string) : list (string * string) :=
  if Py.contains "slack.com" (fetched url)
  then [("Authorization", "Bearer " ++ SLACK_BOT_TOKEN env)]
  else [].

(** *** C1: the bearer credential *)

Definition off_platform_link : string :=
  "https://files.example/slack.com/plan.pdf".

(** *** C7: the file-sharing host *)

Definition shared_link : string :=
  "https://www.dropbox.com/s/abc/file.pdf?dl=0".

(** *** A program logic over traces *)

(** An entry of the trace: a call and how it ended. *)
Definition Entry : Type := (Call * option Exn)%type.

(** [wp m Q]: from any world and state, [m] adds some calls [tr] to the
    trace and yields a result [r] with [Q r tr]. *)
Definition wp {A} (m : M A) (Q : Res A -> list Entry -> Prop) : Prop :=
  forall env st,
  exists tr, trace (snd (m env st)) = (trace st ++ tr)%list
             /\ Q (fst (m env st)) tr.

(** *** Order of the calls in a trace *)

(** Every entry of [tr] that satisfies [Q] has an entry that satisfies [P]
    before it. *)
Definition precedes (P Q : Entry -> Prop) (tr : list Entry) : Prop :=
  forall i y, nth_error tr i = Some y -> Q y ->
  exists j x, j < i /\ nth_error tr j = Some x /\ P x.

(** The same, read off the trace from the left; [seen] holds when an entry
    that satisfies [P] has been passed. *)
Fixpoint precedes_from (P Q : Entry -> Prop) (seen : Prop) (tr : list Entry)
    : Prop :=
  match tr with
  | [] => True
  | y :: t => (Q y -> seen) /\ precedes_from P Q (seen \/ P y) t
  end.

(** A GET that returned. *)
Definition is_get (x : Entry) : Prop :=
  match x with
  | (HttpGet _ _, None) => True
  | _ => False
  end.

(** The fetched bytes written to the scratch path. *)
Definition is_written (x : Entry) : Prop :=
  match x with
  | (WriteFile p _, None) => p = "/tmp/original.pdf"
  | _ => False
  end.

(** The "work started" reply, delivered or not. *)
Definition is_ack (ts : string) (x : Entry) : Prop :=
  match x with
  | (Say m, _) => m = msg_working ts
  | _ => False
  end.

(** A stretch of trace in which the generic apology is not said and every
    "work started" reply follows a completed download. *)
Definition calm (ts : string) (tr : list Entry) : Prop :=
  ~ In (msg_problem ts) (said tr)
  /\ precedes_from is_get (is_ack ts) False tr
  /\ precedes_from is_written (is_ack ts) False tr.

(** *** The stages, one by one *)

(** What a run of [process] leaves in the trace. *)
Definition process_post (ts : string) (r : Res unit) (tr : list Entry) : Prop :=
  calm ts tr
  /\ (r = Ret tt ->
      exists link, sent tr = [msg_working ts; msg_success ts link]).

(** What a run of [resolve] leaves in the trace. *)
Definition resolve_post (event : Event) (r : Res (Reason + Source))
    (tr : list Entry) : Prop :=
  calm (ev_ts event) tr
  /\ (forall k, r = Ret (inl k) -> sent tr = [msg_rejection event k])
  /\ (forall src, r = Ret (inr src) -> sent tr = []).

(** What a run of the [try] body leaves in the trace. *)
Definition pipeline_post (event : Event) (r : Res Exit) (tr : list Entry)
    : Prop :=
  let ts := ev_ts event in
  calm ts tr
  /\ (forall e, r <> Ret (Failed e))
  /\ (forall k, r = Ret (Rejected k) -> sent tr = [msg_rejection event k])
  /\ (r = Ret Done ->
      exists link, sent tr = [msg_working ts; msg_success ts link]).

(** What a run of [handle_mentions] leaves in the trace. *)
Definition handler_post (event : Event) (r : Res Exit) (tr : list Entry)
    : Prop :=
  let ts := ev_ts event in
  (forall k, r = Ret (Rejected k) -> sent tr = [msg_rejection event k])
  /\ (forall e, r = Ret (Failed e) ->
      exists pre, sent tr = (pre ++ [msg_cause e; msg_problem ts])%list
                  /\ ~ In (msg_problem ts) pre)
  /\ (r = Ret Done ->
      exists link, sent tr = [msg_working ts; msg_success ts link])
  /\ precedes_from is_get (is_ack ts) False tr
  /\ precedes_from is_written (is_ack ts) False tr.

(** *** C2: exceptions and the handler's boundary *)

(** A mention whose link is served, in a world where Slack refuses every
    call from the "work started" reply on. *)
Definition plain_mention : Event :=
  mention "<@B> https://files.example/plan.pdf" [].

Definition slack_down : Env :=
  failing_from 5 (SlackApiError "ratelimited").

(** The same world with Slack refusing that one reply only. *)
Definition slack_hiccup : Env :=
  world (fun k => if (k =? 5)%nat then Some (SlackApiError "ratelimited")
                  else None).

(** C2 as the specification states it, for one run: whatever the [try]
    body raises ends in [Failed] with the generic message sent once. *)
Definition caught_and_reported (env : Env) (event : Event)
    (d : list DriveFile) (tok : option string) : Prop :=
  forall e st1,
    pipeline event env (entered d tok) = (Raise e, st1) ->
    exists st,
      run env event d tok = (Ret (Failed e), st)
      /\ exactly_once (msg_problem (ev_ts event)) (sent (trace st)).

(** *** C3: the generic acknowledgement *)

Definition two_files : Event :=
  mention "<@B> shrink these"
    [attachment "pdf" "a.pdf" "https://files.slack.com/files-pri/T1-F1/a.pdf";
     attachment "pdf" "b.pdf" "https://files.slack.com/files-pri/T1-F2/b.pdf"].

(** *** C4: the "work started" acknowledgement and the download *)

(** A download that was issued, whatever came of it. *)
Definition is_download (x : Entry) : Prop :=
  match x with
  | (HttpGet _ _, _) => True
  | _ => False
  end.

(** *** C10: the name of the published file *)

(** An occurrence of [.pdf] starts at position [p] of [s]. *)
Definition occurs_at (s : string) (p : nat) : bool :=
  String.prefix ".pdf" (Py.drop p s).

(** Position [i] of [s] lies inside an occurrence of [.pdf]. *)
Definition covered (s : string) (i : nat) : bool :=
  occurs_at s i
  || ((1 <=? i)%nat && occurs_at s (i - 1))
  || ((2 <=? i)%nat && occurs_at s (i - 2))
  || ((3 <=? i)%nat && occurs_at s (i - 3)).

(** The characters of [s] that lie in no occurrence of [.pdf], in order:
    [t] is what is left of [s] from position [i] on. *)
Fixpoint uncovered_from (s : string) (i : nat) (t : string) : string :=
  match t with
  | "" => ""
  | String c t' =>
      if covered s i then uncovered_from s (S i) t'
      else String c (uncovered_from s (S i) t')
  end.

(** [s] with every occurrence of [.pdf] deleted. *)
Definition without_pdf (s : string) : string := uncovered_from s 0 s.

(** What the scan of [replace] knows at position [i] with [skip] characters
    of an occurrence left to pass. *)
Definition scan_inv (s : string) (i skip : nat) : Prop :=
  match skip with
  | O => forall p, p < i -> i < p + 4 -> occurs_at s p = false
  | S k => k < 3 /\ exists p, p + (3 - k) = i /\ occurs_at s p = true
  end.

(** *** C8: folder resolution *)

(** The folders the run asked the Drive to create. *)
Fixpoint folder_creates (tr : list Entry) : list string :=
  match tr with
  | [] => []
  | (FilesCreateFolder n, _) :: t => n :: folder_creates t
  | _ :: t => folder_creates t
  end.

(** The parents of the files the run asked the Drive to store. *)
Fixpoint upload_parents (tr : list Entry) : list (list string) :=
  match tr with
  | [] => []
  | (FilesCreateMedia _ ps _, _) :: t => ps :: upload_parents t
  | _ :: t => upload_parents t
  end.

(** *** C5: the link taken from the text *)

Definition nonspace (c : ascii) : bool := negb (Py.isspace c).

(** [u] is what the pattern matches at the start of [s]: one of the two
    scheme prefixes, then the longest run of characters that are not
    whitespace, which is not empty. *)
Definition url_at_start (s u : string) : Prop :=
  exists sch run rest,
    (sch = "http://" \/ sch = "https://")
    /\ u = sch ++ run
    /\ s = sch ++ run ++ rest
    /\ run <> ""
    /\ Url.all_chars nonspace run = true
    /\ (rest = "" \/ exists c r, rest = String c r /\ Py.isspace c = true).

(** The pattern matches [u] at position [i] of [text]. *)
Definition url_at (text : string) (i : nat) (u : string) : Prop :=
  url_at_start (Py.drop i text) u.

(** The reply of lines 159-176, delivered or not, from state [st1]. *)
Definition reject_link (event : Event) (env : Env) (st1 : State)
    : Res (Reason + Source) * State :=
  match fault env (List.length (trace st1)) with
  | Some e => (Raise e, log st1 (Say (msg_wrong_link (ev_ts event))) (Some e))
  | None =>
      (Ret (inl NoUsableLink),
       log st1 (Say (msg_wrong_link (ev_ts event))) None)
  end.

(** The text carries no usable link: no match of the pattern, or a first
    match whose path does not end in [.pdf], whatever the case. *)
Definition no_usable_link (text : string) : Prop :=
  extract_url text = None
  \/ exists u, extract_url text = Some u /\ has_pdf_suffix u = false.

Definition bracket_mention : Event := mention "<@B> https://[/plan.txt" [].

Definition mixed_case_mention : Event :=
  mention "<@B> see https://files.example/a/plan.PDF?rev=2 and http://b.example/c" [].

(** *** C6: the display filename *)

(** The final segment of the path component. *)
Definition final_path_segment (url : string) : string :=
  Py.last_segment "/" (path_of url).

(** What the source of an event is: the attachment's own locator and
    declared name, or the first link of the text with, for a name, the
    text after its last [/], which is the final segment of its path when
    the link has neither query nor fragment nor parameters. *)
Definition source_of (event : Event) (src : Source) : Prop :=
  match ev_files event with
  | f :: _ =>
      file_url src = fi_url_private_download f
      /\ original_filename src = fi_name f
  | [] =>
      exists u seg before,
        extract_url (ev_text event) = Some u
        /\ file_url src = Some u
        /\ original_filename src = Some seg
        /\ u = before ++ String "/" seg
        /\ Py.has_char "/" seg = false
        /\ (Py.has_char "?" u = false -> Py.has_char "#" u = false ->
            Py.has_char ";" u = false -> seg = final_path_segment u)
  end.

Definition query_mention : Event :=
  mention "<@B> https://files.example/docs/plan.pdf?dl=1" [].

(** *** The request and the response of [download_file] *)

(** The bearer header, or none. *)
Definition bearer_if (env : Env) (b : bool) : list (string * string) :=
  if b then [("Authorization", "Bearer " ++ SLACK_BOT_TOKEN env)] else [].

(** The response is not an error status (what [raise_for_status] lets
    through). *)
Definition served (env : Env) (url : string) : Prop :=
  ((400 <=? fst (http_response env (fetched url)))%nat
   && (fst (http_response env (fetched url)) <? 600)%nat) = false.


(** *** Work, and what the attachments decide *)

(** The calls that fetch, write, compress or touch the Drive. *)
Definition is_work (x : Entry) : bool :=
  match fst x with
  | HttpGet _ _ | WriteFile _ _ | RunGs _ | LoadCredentials _
  | RunLocalServerFlow _ | BuildService | FilesList _ | FilesCreateFolder _
  | FilesCreateMedia _ _ _ | PermissionsCreate _ => true
  | LogInfo _ | LogError _ | Print _ | UsersInfo _ | ConversationsInfo _
  | Say _ => false
  end.

Definition work (tr : list Entry) : list Entry := filter is_work tr.

(** What the attachments alone decide: the rejection, if any. *)
Definition attachment_verdict (files : list FileInfo) : option Reason :=
  match files with
  | [] => None
  | _ :: _ :: _ => Some TooManyAttachments
  | [f] =>
      if option_eqb (fi_filetype f) (Some "pdf") then None
      else Some UnsupportedType
  end.

(** The lookup of lines 116-121: the user for a direct-message channel,
    the channel otherwise. *)
Definition lookup_call (event : Event) : Call :=
  if String.prefix "D" (ev_channel event)
  then UsersInfo (ev_user event)
  else ConversationsInfo (ev_channel event).

(** The name the program looks up for the destination folder. *)
Definition folder_name (env : Env) (event : Event) : string :=
  if String.prefix "D" (ev_channel event)
  then user_name env (ev_user event)
  else channel_name env (ev_channel event).

(** The one Ghostscript command of lines 56-65, as [handle_mentions]
    issues it. *)
Definition gs_command : Call :=
  RunGs ["gs"; "-sDEVICE=pdfwrite"; "-dCompatibilityLevel=1.4";
         "-dPDFSETTINGS=/screen"; "-dNOPAUSE"; "-dBATCH";
         "-sOutputFile=/tmp/original_cmp.pdf"; "/tmp/original.pdf"].

(** *** The Drive and the token file *)

(** The link of line 100. *)
Definition view_link (id : string) : string :=
  "https://drive.google.com/file/d/" ++ id ++ "/view".

(** The object the upload leaves on the Drive. *)
Definition published (id name folder_id : string) : DriveFile :=
  {| df_id := id; df_name := name; df_mime := "application/pdf";
     df_parents := [folder_id]; df_trashed := false;
     df_anyone_reader := true |}.

(** What an object is, apart from who may read it. *)
Definition identity (f : DriveFile)
    : string * string * string * list string * bool :=
  (df_id f, df_name f, df_mime f, df_parents f, df_trashed f).

(** The interactive authorizations the run started. *)
Definition flows (tr : list Entry) : list Entry :=
  filter (fun x => match fst x with RunLocalServerFlow _ => true | _ => false end)
    tr.

(** *** The order of the stages *)

(** The place of a call in the pipeline of lines 184-206; [0] for the calls
    that are not part of it (the logger, the name lookup, the other
    replies).  A reply is recognized by its text. *)
Definition stage_of (x : Entry) : nat :=
  match fst x with
  | HttpGet _ _ => 1
  | WriteFile p _ => if String.eqb p TOKEN_PATH then 6 else 2
  | Say m =>
      if String.eqb (msg_text m) "working on that... " then 3
      else if String.prefix "Here's your optimized file: " (msg_text m)
           then 12 else 0
  | RunGs _ => 4
  | LoadCredentials _ | RunLocalServerFlow _ => 5
  | BuildService => 7
  | FilesList _ => 8
  | FilesCreateFolder _ => 9
  | FilesCreateMedia _ _ _ => 10
  | PermissionsCreate _ => 11
  | LogInfo _ | LogError _ | Print _ | UsersInfo _ | ConversationsInfo _ => 0
  end.

(** The calls of a trace that belong to the pipeline. *)
Definition milestones (tr : list Entry) : list Entry :=
  filter (fun x => (0 <? stage_of x)%nat) tr.

(** The stages of [l] go up from above [n], and only the last call of [l]
    may have raised. *)
Fixpoint in_order (n : nat) (l : list Entry) : bool :=
  match l with
  | [] => true
  | x :: t =>
      (n <? stage_of x)%nat
      && match snd x, t with
         | Some _, _ :: _ => false
         | _, _ => true
         end
      && in_order (stage_of x) t
  end.

(** * Properties *)

(** ** Traces under concatenation *)

Lemma sent_app tr1 tr2 : sent (tr1 ++ tr2) = (sent tr1 ++ sent tr2)%list.
Proof.
  induction tr1 as [|[c o] t IH]; simpl; [reflexivity|].
  destruct c; try assumption.
  destruct o; [assumption|].
  simpl. now rewrite IH.
Qed.

Lemma said_app tr1 tr2 : said (tr1 ++ tr2) = (said tr1 ++ said tr2)%list.
Proof.
  induction tr1 as [|[c o] t IH]; simpl; [reflexivity|].
  destruct c; try assumption.
  simpl. now rewrite IH.
Qed.

Lemma gets_app tr1 tr2 : gets (tr1 ++ tr2) = (gets tr1 ++ gets tr2)%list.
Proof.
  induction tr1 as [|[c o] t IH]; simpl; [reflexivity|].
  destruct c; try assumption.
  simpl. now rewrite IH.
Qed.

Lemma sent_said tr m : In m (sent tr) -> In m (said tr).
Proof.
  induction tr as [|[c o] t IH]; simpl; [tauto|].
  destruct c; try assumption.
  destruct o; simpl; tauto.
Qed.

(** ** The request of [download_file] *)

(** One GET is issued, for the rewritten locator, with the bearer header
    exactly when the text ["slack.com"] occurs somewhere in that locator. *)
Lemma download_file_request url path env st :
  gets (trace (snd (download_file (Some url) path env st)))
  = (gets (trace st) ++ [(fetched url, headers_for env url)])%list.
Proof.
  unfold download_file, headers_for, fetched, bind, ask, call, ret, raise.
  set (u := if Py.contains "dropbox.com" url then _ else url).
  destruct (fault env (List.length (trace st))) as [e|]; simpl.
  - now rewrite gets_app.
  - destruct (_ && _); simpl.
    + now rewrite gets_app.
    + destruct (fault env _); simpl;
        now rewrite !gets_app, app_nil_r.
Qed.

(** ** C1: the bearer credential *)

(** C1.  The specification attaches the bot's bearer credential only to a
    locator on the chat platform's own domain.  The code tests whether the
    text [slack.com] occurs anywhere in the locator: for the link
    [https://files.example/slack.com/plan.pdf], whose host is
    [files.example], [download_file] sends the GET with the header
    [Authorization: Bearer <bot token>], in any world; a mention carrying
    that link in its text makes the handler issue exactly that request. *)
Theorem C1_bearer_sent_off_platform :
  Url.netloc (Url.components off_platform_link) = "files.example"
  /\ (forall env st path,
        gets (trace (snd (download_file (Some off_platform_link) path env st)))
        = (gets (trace st)
           ++ [(off_platform_link,
                [("Authorization", ("Bearer " ++ SLACK_BOT_TOKEN env)%string)])])%list)
  /\ gets (trace (snd (run quiet (mention ("<@B> " ++ off_platform_link) [])
                         [] None)))
     = [(off_platform_link, [("Authorization", "Bearer xoxb-bot-token")])].
Proof.
  split; [reflexivity|].
  split; [|reflexivity].
  intros env st path.
  rewrite download_file_request.
  reflexivity.
Qed.

(** ** C7: the file-sharing host *)

(** C7.  The specification rewrites a [www.dropbox.com] link with the
    query [?dl=0] to its direct-download form, host
    [dl.dropboxusercontent.com] and query [dl=1].  Line 45 replaces the
    text [?d1=0] (digit one), which such a link does not contain: the host
    is rewritten and the query is left as [?dl=0], and that is the locator
    the GET is issued for. *)
Theorem C7_query_not_rewritten :
  fetched shared_link = "https://dl.dropboxusercontent.com/s/abc/file.pdf?dl=0"
  /\ fetched shared_link <> "https://dl.dropboxusercontent.com/s/abc/file.pdf?dl=1"
  /\ (forall env st path,
        gets (trace (snd (download_file (Some shared_link) path env st)))
        = (gets (trace st)
           ++ [("https://dl.dropboxusercontent.com/s/abc/file.pdf?dl=0", [])])%list).
Proof.
  split; [reflexivity|].
  split; [discriminate|].
  intros env st path.
  rewrite download_file_request.
  reflexivity.
Qed.

(** ** C9: threading of the replies *)

(** C9.  The specification threads every reply to the timestamp of the
    originating message.  The reply to a mention with more than one
    attachment (line 127) is sent without [thread_ts], whatever the event;
    so is the reply that carries the text of a caught exception (lines 210
    and 231), as a run on a link the parser refuses shows. *)
Theorem C9_replies_without_thread :
  (forall channel user ts text f1 f2 fs,
      let event := {| ev_channel := channel; ev_user := user; ev_ts := ts;
                      ev_files := f1 :: f2 :: fs; ev_text := text |} in
      sent (trace (snd (run quiet event [] None))) = [msg_too_many])
  /\ msg_thread_ts msg_too_many = None
  /\ (let event := mention "<@B> https://[/plan.pdf" [] in
      let e := PyError "ValueError" "Invalid IPv6 URL" in
      sent (trace (snd (run quiet event [] None)))
      = [msg_unexpected e; msg_problem (ev_ts event)]
      /\ msg_thread_ts (msg_unexpected e) = None).
Proof.
  split.
  - intros channel user ts text f1 f2 fs event.
    unfold run, handle_mentions, pipeline, folder_name_of, resolve, event.
    cbn -[String.prefix].
    destruct (String.prefix "D" channel); reflexivity.
  - split; [reflexivity|].
    split; reflexivity.
Qed.

(** ** A program logic over traces *)

Lemma wp_ret {A} (a : A) Q : Q (Ret a) [] -> wp (ret a) Q.
Proof. intros H env st. exists []. simpl. now rewrite app_nil_r. Qed.

Lemma wp_raise {A} (e : Exn) (Q : Res A -> list Entry -> Prop) :
  Q (Raise e) [] -> wp (raise e) Q.
Proof. intros H env st. exists []. simpl. now rewrite app_nil_r. Qed.

Lemma wp_ask {A} (f : Env -> A) (Q : Res A -> list Entry -> Prop) :
  (forall x, Q (Ret x) []) -> wp (ask f) Q.
Proof. intros H env st. exists []. simpl. rewrite app_nil_r. auto. Qed.

Lemma wp_get {A} (f : State -> A) (Q : Res A -> list Entry -> Prop) :
  (forall x, Q (Ret x) []) -> wp (get f) Q.
Proof. intros H env st. exists []. simpl. rewrite app_nil_r. auto. Qed.

Lemma wp_modify (f : State -> State) Q :
  (forall st, trace (f st) = trace st) -> Q (Ret tt) [] -> wp (modify f) Q.
Proof. intros Hf H env st. exists []. simpl. rewrite app_nil_r. auto. Qed.

Lemma wp_emit (c : Call) Q : Q (Ret tt) [(c, None)] -> wp (emit c) Q.
Proof. intros H env st. exists [(c, None)]. simpl. auto. Qed.

Lemma wp_call (c : Call) Q :
  Q (Ret tt) [(c, None)] -> (forall e, Q (Raise e) [(c, Some e)]) ->
  wp (call c) Q.
Proof.
  intros Hok Hko env st. unfold call.
  destruct (fault env _) as [e|]; eexists; simpl; split; eauto.
Qed.

Lemma wp_bind {A B} (m : M A) (k : A -> M B) Q :
  wp m (fun r tr1 =>
          match r with
          | Ret a => wp (k a) (fun r2 tr2 => Q r2 (tr1 ++ tr2)%list)
          | Raise e => Q (Raise e) tr1
          end) ->
  wp (bind m k) Q.
Proof.
  intros H env st. unfold bind.
  destruct (H env st) as [tr1 [Ht H1]].
  destruct (m env st) as [[a|e] st1]; simpl in *.
  - destruct (H1 env st1) as [tr2 [Ht2 H2]].
    exists (tr1 ++ tr2)%list. rewrite Ht2, Ht, app_assoc. auto.
  - exists tr1. auto.
Qed.

Lemma wp_try {A} (m : M A) (h : Exn -> M A) Q :
  wp m (fun r tr1 =>
          match r with
          | Ret a => Q (Ret a) tr1
          | Raise e => wp (h e) (fun r2 tr2 => Q r2 (tr1 ++ tr2)%list)
          end) ->
  wp (try_except m h) Q.
Proof.
  intros H env st. unfold try_except.
  destruct (H env st) as [tr1 [Ht H1]].
  destruct (m env st) as [[a|e] st1]; simpl in *.
  - exists tr1. auto.
  - destruct (H1 env st1) as [tr2 [Ht2 H2]].
    exists (tr1 ++ tr2)%list. rewrite Ht2, Ht, app_assoc. auto.
Qed.

Lemma wp_conseq {A} (m : M A) (Q Q' : Res A -> list Entry -> Prop) :
  wp m Q -> (forall r tr, Q r tr -> Q' r tr) -> wp m Q'.
Proof.
  intros H HQ env st. destruct (H env st) as [tr [Ht H1]]. eauto.
Qed.

(** One step of a proof that follows the program text. *)
Ltac wp_step :=
  lazymatch goal with
  | |- wp (bind _ _) _ => apply wp_bind
  | |- wp (call _) _ => apply wp_call; [|intros ?]
  | |- wp (say _) _ => unfold say
  | |- wp (emit _) _ => apply wp_emit
  | |- wp (ret _) _ => apply wp_ret
  | |- wp (raise _) _ => apply wp_raise
  | |- wp (lift ?r) _ => destruct r eqn:?; cbn [lift]
  | |- wp (ask _) _ => apply wp_ask; intros ?
  | |- wp (get _) _ => apply wp_get; intros ?
  | |- wp (modify _) _ => apply wp_modify; [reflexivity|]
  | |- wp (match ?x with _ => _ end) _ => destruct x eqn:?
  end; cbv beta iota.

Ltac wp_run := repeat wp_step.

(** ** Order of the calls in a trace *)

Lemma precedes_from_mono P Q (s1 s2 : Prop) tr :
  (s1 -> s2) -> precedes_from P Q s1 tr -> precedes_from P Q s2 tr.
Proof.
  revert s1 s2.
  induction tr as [|y t IH]; simpl; [trivial|].
  intros s1 s2 Hs [Hy Ht]. split; [tauto|].
  apply IH with (s1 := s1 \/ P y); tauto.
Qed.

Lemma precedes_from_app P Q seen tr1 tr2 :
  precedes_from P Q seen tr1 -> precedes_from P Q seen tr2 ->
  precedes_from P Q seen (tr1 ++ tr2).
Proof.
  revert seen.
  induction tr1 as [|y t IH]; simpl; [trivial|].
  intros seen [Hy Ht] H2. split; [exact Hy|].
  apply IH; [exact Ht|].
  apply precedes_from_mono with (s1 := seen); tauto.
Qed.

Lemma precedes_from_none P Q seen tr :
  Forall (fun y => ~ Q y) tr -> precedes_from P Q seen tr.
Proof.
  intros H. revert seen.
  induction H as [|y t Hy Ht IH]; simpl; intros seen; [trivial|].
  split; [tauto | apply IH].
Qed.

Lemma precedes_from_sound P Q seen tr :
  precedes_from P Q seen tr ->
  forall i y, nth_error tr i = Some y -> Q y ->
  seen \/ exists j x, j < i /\ nth_error tr j = Some x /\ P x.
Proof.
  revert seen.
  induction tr as [|z t IH]; intros seen H i y Hi Hq.
  - destruct i; discriminate.
  - destruct H as [Hz Ht].
    destruct i as [|i]; simpl in Hi.
    + injection Hi as ->. left. auto.
    + destruct (IH _ Ht i y Hi Hq) as [[Hs|Hp]|[j [x [Hj [Hx Hpx]]]]].
      * left. exact Hs.
      * right. exists 0, z. repeat split; [lia | assumption].
      * right. exists (S j), x. repeat split; [lia | assumption | assumption].
Qed.

Lemma precedes_from_precedes P Q tr :
  precedes_from P Q False tr -> precedes P Q tr.
Proof.
  intros H i y Hi Hq.
  destruct (precedes_from_sound _ _ _ _ H i y Hi Hq) as [[]|Hex].
  exact Hex.
Qed.

Lemma mute_no_ack ts tr : said tr = [] -> Forall (fun y => ~ is_ack ts y) tr.
Proof.
  induction tr as [|[c o] t IH]; intros H; constructor;
    destruct c; simpl in *; try discriminate; auto.
Qed.

Lemma mute_sent tr : said tr = [] -> sent tr = [].
Proof.
  induction tr as [|[c o] t IH]; intros H; [reflexivity|].
  destruct c; simpl in *; try discriminate; auto.
Qed.

Lemma calm_mute ts tr : said tr = [] -> calm ts tr.
Proof.
  intros H. unfold calm. rewrite H.
  repeat split; try (apply precedes_from_none, mute_no_ack, H).
  simpl. tauto.
Qed.

Lemma calm_app ts tr1 tr2 : calm ts tr1 -> calm ts tr2 -> calm ts (tr1 ++ tr2).
Proof.
  intros (Hp1 & Hg1 & Hw1) (Hp2 & Hg2 & Hw2).
  unfold calm. rewrite said_app, in_app_iff.
  repeat split; try (apply precedes_from_app; assumption).
  tauto.
Qed.

(** ** The stages, one by one *)

Lemma download_file_spec url path :
  wp (download_file url path)
     (fun r tr =>
        said tr = []
        /\ (r = Ret tt ->
            exists u h c, tr = [(HttpGet u h, None); (WriteFile path c, None)])).
Proof.
  unfold download_file.
  wp_run; cbn [app said]; (split; [reflexivity|]); intros H;
    try discriminate H; eauto.
Qed.

Lemma optimize_pdf_spec a b : wp (optimize_pdf a b) (fun _ tr => said tr = []).
Proof. unfold optimize_pdf. wp_run; reflexivity. Qed.

Lemma upload_to_drive_spec a b c :
  wp (upload_to_drive a b c) (fun _ tr => said tr = []).
Proof.
  unfold upload_to_drive, get_drive_service, resolve_folder, files_list,
    files_create, permissions_create.
  wp_run; reflexivity.
Qed.

Lemma folder_name_of_spec event :
  wp (folder_name_of event) (fun _ tr => said tr = []).
Proof. unfold folder_name_of. wp_run; reflexivity. Qed.

(** A step that uses what is known of a stage instead of entering it. *)
Ltac stage_step :=
  lazymatch goal with
  | |- wp (download_file _ _) _ =>
      eapply wp_conseq;
      [ apply download_file_spec
      | let Hr := fresh "Hr" in
        cbv beta; intros [[]|?] ? [? Hr];
        [ destruct (Hr eq_refl) as (? & ? & ? & ->); clear Hr | clear Hr ] ]
  | |- wp (optimize_pdf _ _) _ =>
      eapply wp_conseq;
      [ apply optimize_pdf_spec | cbv beta; intros [[]|?] ? ? ]
  | |- wp (upload_to_drive _ _ _) _ =>
      eapply wp_conseq;
      [ apply upload_to_drive_spec | cbv beta; intros [?|?] ? ? ]
  end.

Ltac wp_stages := repeat (stage_step || wp_step).

Ltac mute_tail :=
  apply precedes_from_none;
  repeat (apply Forall_app; split);
  repeat (apply Forall_cons);
  try apply Forall_nil;
  try (apply mute_no_ack; assumption);
  try (cbn [is_ack]; first [tauto | discriminate]).

(** The facts about an explicit trace with silent stretches in it. *)
Ltac trace_facts :=
  cbn [app]; rewrite ?app_nil_r;
  repeat match goal with
         | H : said ?t = [] |- _ =>
             lazymatch goal with
             | _ : sent t = [] |- _ => fail
             | _ => pose proof (mute_sent _ H)
             end
         end;
  unfold calm;
  repeat match goal with
         | |- _ /\ _ => split
         end;
  lazymatch goal with
  | |- ~ In _ (said _) =>
      cbn [said]; rewrite ?said_app; cbn [said];
      repeat match goal with H : said _ = [] |- _ => rewrite H end;
      cbn [app In]; intuition discriminate
  | |- precedes_from _ _ _ _ =>
      cbn [precedes_from is_ack is_get is_written];
      repeat match goal with
             | |- _ /\ _ => split
             | |- True => exact I
             | |- precedes_from _ _ _ _ => mute_tail
             | |- _ -> _ =>
                 let H := fresh in
                 intros H; first [ discriminate H | tauto | auto 6 ]
             end
  | |- _ = _ -> _ =>
      let H := fresh in
      intros H; try discriminate H;
      try eexists;
      cbn [sent]; rewrite ?sent_app; cbn [sent];
      repeat match goal with H : sent _ = [] |- _ => rewrite H end;
      reflexivity
  | |- forall _, _ = _ -> _ =>
      let H := fresh in
      intros ? H; try discriminate H;
      try (injection H as <-);
      cbn [sent]; rewrite ?sent_app; cbn [sent];
      repeat match goal with H : sent _ = [] |- _ => rewrite H end;
      reflexivity
  | _ => idtac
  end.

Lemma process_spec event folder_name src :
  wp (process event folder_name src) (process_post (ev_ts event)).
Proof.
  unfold process, process_post.
  wp_stages; trace_facts.
Qed.

Lemma resolve_spec event : wp (resolve event) (resolve_post event).
Proof.
  unfold resolve, resolve_post.
  wp_stages; trace_facts.
Qed.

Lemma pipeline_spec event : wp (pipeline event) (pipeline_post event).
Proof.
  unfold pipeline, pipeline_post.
  apply wp_bind.
  eapply wp_conseq; [apply folder_name_of_spec|].
  cbv beta. intros [folder_name|e] tr1 H1.
  - apply wp_bind.
    eapply wp_conseq; [apply resolve_spec|].
    cbv beta. intros [[k|src]|e] tr2 (Hc & Hk & Hs).
    + apply wp_ret. rewrite app_nil_r.
      split; [apply calm_app; [apply calm_mute|]; assumption|].
      split; [discriminate|].
      split; [|discriminate].
      intros k' H. injection H as <-.
      rewrite sent_app, (mute_sent _ H1). apply Hk. reflexivity.
    + apply wp_bind.
      eapply wp_conseq; [apply process_spec|].
      cbv beta. intros [[]|e] tr3 (Hc3 & Hd).
      * apply wp_ret. rewrite app_nil_r.
        split; [repeat apply calm_app; try assumption; now apply calm_mute|].
        split; [discriminate|].
        split; [discriminate|].
        intros _. destruct (Hd eq_refl) as [link Hl]. exists link.
        rewrite !sent_app, (mute_sent _ H1), (Hs src eq_refl). exact Hl.
      * split; [repeat apply calm_app; try assumption; now apply calm_mute|].
        repeat split; discriminate.
    + split; [apply calm_app; [apply calm_mute|]; assumption|].
      repeat split; discriminate.
  - split; [now apply calm_mute|].
    repeat split; discriminate.
Qed.

Lemma on_exception_spec event e :
  wp (on_exception event e)
     (fun r tr =>
        (forall m, In m (said tr) ->
                   m = msg_cause e \/ m = msg_problem (ev_ts event))
        /\ (forall x, r = Ret x ->
            x = Failed e
            /\ sent tr = [msg_cause e; msg_problem (ev_ts event)])).
Proof.
  unfold on_exception.
  destruct e; wp_run; cbn [app said sent msg_cause In];
    (split; [intuition auto|]); intros x H; try discriminate H;
    injection H as <-; split; reflexivity.
Qed.

Lemma handle_mentions_spec event :
  wp (handle_mentions event) (handler_post event).
Proof.
  unfold handle_mentions, handler_post.
  apply wp_bind, wp_emit. cbv beta iota.
  apply wp_try.
  eapply wp_conseq; [apply pipeline_spec|].
  cbv beta. intros [x|e] tr ((Hp & Hg & Hw) & Hf & Hk & Hd).
  - cbn [app sent].
    split; [intros k H; now apply Hk|].
    split; [intros e H; now destruct (Hf e)|].
    split; [intros H; now apply Hd|].
    cbn [precedes_from is_ack is_get is_written].
    split; (split; [tauto|]);
      (eapply precedes_from_mono; [|eassumption]); tauto.
  - eapply wp_conseq; [apply on_exception_spec|].
    cbv beta. intros r tr2 (Hs & Hr).
    assert (Hquiet : Forall (fun y => ~ is_ack (ev_ts event) y) tr2).
    { assert (L : forall m, In m (said tr2) -> m <> msg_working (ev_ts event)).
      { intros m Hm. destruct (Hs m Hm) as [->| ->];
          [destruct e|]; discriminate. }
      clear Hs Hr.
      induction tr2 as [|[c o] t IH]; constructor.
      - destruct c; simpl; try tauto. apply L. simpl. auto.
      - apply IH. intros m Hm. apply L.
        destruct c; simpl; auto. }
    cbn [app sent].
    split; [intros k H; destruct (Hr _ H); discriminate|].
    split.
    { intros e' H. destruct (Hr _ H) as [He Hsent].
      injection He as ->.
      exists (sent tr). rewrite sent_app, Hsent. split; [reflexivity|].
      intros Hin. apply Hp, sent_said, Hin. }
    split; [intros H; destruct (Hr _ H); discriminate|].
    cbn [precedes_from is_ack is_get is_written].
    split; (split; [tauto|]); apply precedes_from_app;
      try (apply precedes_from_none; exact Hquiet);
      (eapply precedes_from_mono; [|eassumption]); tauto.
Qed.

(** The facts of [handle_mentions_spec] for a run on a fresh trace. *)
Lemma run_facts env event d tok :
  handler_post event (fst (run env event d tok))
    (trace (snd (run env event d tok))).
Proof.
  destruct (handle_mentions_spec event env (start d tok)) as [tr [Ht H]].
  unfold run. rewrite Ht. exact H.
Qed.

(** ** C2: exceptions and the handler's boundary *)

Lemma length_log st c o :
  List.length (trace (log st c o)) = S (List.length (trace st)).
Proof. simpl. rewrite length_app. simpl. lia. Qed.

Lemma run_unfold env event d tok :
  run env event d tok
  = try_except (pipeline event) (on_exception event) env (entered d tok).
Proof. reflexivity. Qed.

Lemma said_entered d tok : said (trace (entered d tok)) = [].
Proof. reflexivity. Qed.

(** C2, counterexample.  With Slack refusing every call from the "work
    started" reply on, that reply raises inside the [try], the [except]
    clause's own reply raises again, and the exception leaves the handler
    with no generic message sent. *)
Lemma C2_counterexample :
  ~ caught_and_reported slack_down plain_mention [] None.
Proof.
  intros H.
  destruct (pipeline plain_mention slack_down (entered [] None))
    as [r st1] eqn:Hp.
  vm_compute in Hp. injection Hp as <- <-.
  edestruct H as [st [Hrun _]]; [vm_compute; reflexivity|].
  vm_compute in Hrun. discriminate Hrun.
Qed.

(** C2, amended.  Every exception raised inside the [try] body, by any
    stage, is caught by the handler; when the two replies of the [except]
    clause are delivered, the run ends in [Failed] with that exception, the
    cause is logged, the replies sent so far are followed by the message
    carrying the exception's text and by the generic message, which is
    sent exactly once, and nothing leaves the handler. *)
Theorem C2_exception_caught env event d tok e st1 :
  pipeline event env (entered d tok) = (Raise e, st1) ->
  fault env (1 + List.length (trace st1)) = None ->
  fault env (2 + List.length (trace st1)) = None ->
  exists st,
    run env event d tok = (Ret (Failed e), st)
    /\ (exists line, In (LogError line, None) (trace st))
    /\ sent (trace st)
       = (sent (trace st1) ++ [msg_cause e; msg_problem (ev_ts event)])%list
    /\ exactly_once (msg_problem (ev_ts event)) (sent (trace st)).
Proof.
  intros Hp H1 H2.
  assert (Hquiet : ~ In (msg_problem (ev_ts event)) (sent (trace st1))).
  { destruct (pipeline_spec event env (entered d tok)) as [tr [Ht Hpost]].
    rewrite Hp in Ht, Hpost. simpl in Ht.
    destruct Hpost as ((Hn & _) & _).
    intros Hin. apply sent_said in Hin.
    rewrite Ht in Hin. simpl in Hin. auto. }
  rewrite run_unfold. unfold try_except. rewrite Hp.
  assert (Hsteps :
    forall line m,
      (emit (LogError line) ;; say m ;; say (msg_problem (ev_ts event)) ;;
       ret (Failed e)) env st1
      = (Ret (Failed e),
         log (log (log st1 (LogError line) None) (Say m) None)
           (Say (msg_problem (ev_ts event))) None)).
  { intros line m. unfold bind, emit, say, call, ret.
    simpl in H1, H2.
    rewrite length_log, H1. cbv beta iota.
    rewrite !length_log, H2. reflexivity. }
  assert (Hsent :
    forall line m,
      sent (trace (log (log (log st1 (LogError line) None) (Say m) None)
                     (Say (msg_problem (ev_ts event))) None))
      = (sent (trace st1) ++ [m; msg_problem (ev_ts event)])%list).
  { intros line m. simpl. rewrite !sent_app. simpl.
    rewrite app_nil_r, <- app_assoc. reflexivity. }
  assert (Honce :
    forall m, m <> msg_problem (ev_ts event) ->
      exactly_once (msg_problem (ev_ts event))
        (sent (trace st1) ++ [m; msg_problem (ev_ts event)])).
  { intros m Hm. exists (sent (trace st1) ++ [m])%list, [].
    split; [now rewrite <- app_assoc|].
    split; [|simpl; tauto].
    rewrite in_app_iff. simpl. intros [Hin|[Hin|[]]]; auto. }
  destruct e as [m|c m]; unfold on_exception; rewrite Hsteps;
    (eexists; split; [reflexivity|]);
    rewrite Hsent;
    (split; [|split; [reflexivity|apply Honce; discriminate]]);
    eexists; simpl; rewrite !in_app_iff; left; left; right; simpl; eauto.
Qed.

(** The theorem at work: Slack refuses the "work started" reply and
    nothing else. *)
Lemma C2_exception_caught_witness :
  exists st,
    run slack_hiccup plain_mention [] None
    = (Ret (Failed (SlackApiError "ratelimited")), st)
    /\ (exists line, In (LogError line, None) (trace st))
    /\ sent (trace st)
       = [msg_cause (SlackApiError "ratelimited");
          msg_problem (ev_ts plain_mention)]
    /\ exactly_once (msg_problem (ev_ts plain_mention)) (sent (trace st)).
Proof.
  apply (C2_exception_caught slack_hiccup plain_mention [] None
           (SlackApiError "ratelimited")
           (snd (pipeline plain_mention slack_hiccup (entered [] None)))).
  - vm_compute. reflexivity.
  - vm_compute. reflexivity.
  - vm_compute. reflexivity.
Defined.

(** An exception leaves the handler only out of an [except] clause: the
    [try] body raised, and one of the clause's two replies raised. *)
Lemma escape_only_from_except env event d tok e' :
  fst (run env event d tok) = Raise e' ->
  exists e st1,
    pipeline event env (entered d tok) = (Raise e, st1)
    /\ (fault env (1 + List.length (trace st1)) = Some e'
        \/ fault env (2 + List.length (trace st1)) = Some e').
Proof.
  rewrite run_unfold. unfold try_except.
  destruct (pipeline event env (entered d tok)) as [[x|e] st1] eqn:Hp;
    [discriminate|].
  intros H. exists e, st1. split; [reflexivity|].
  assert (Hcases :
    forall line m,
      fst ((emit (LogError line) ;; say m ;;
            say (msg_problem (ev_ts event)) ;; ret (Failed e)) env st1)
      = Raise e' ->
      fault env (1 + List.length (trace st1)) = Some e'
      \/ fault env (2 + List.length (trace st1)) = Some e').
  { intros line m. unfold bind, emit, say, call, ret. simpl plus.
    rewrite length_log.
    destruct (fault env (S _)) as [e1|]; cbv beta iota.
    - simpl. intros [= ->]. now left.
    - rewrite !length_log.
      destruct (fault env (S (S _))) as [e2|]; simpl; intros [= ->].
      now right. }
  destruct e; unfold on_exception in H; eapply Hcases; exact H.
Qed.

(** ** C3: the generic acknowledgement *)

(** C3, counterexample.  A mention with two attachments ends in the
    [Failed] state with the "one PDF at a time" reply as the only message:
    the generic acknowledgement is not sent. *)
Lemma C3_counterexample :
  ~ (forall x,
       fst (run quiet two_files [] None) = Ret x ->
       terminal x = StFailed ->
       In (msg_problem (ev_ts two_files))
          (sent (trace (snd (run quiet two_files [] None))))).
Proof.
  intros H.
  specialize (H (Rejected TooManyAttachments) eq_refl eq_refl).
  vm_compute in H.
  destruct H as [H|[]]. discriminate H.
Qed.

Lemma rejection_is_not_apology event k :
  msg_rejection event k <> msg_problem (ev_ts event).
Proof. destruct k; discriminate. Qed.

(** C3, amended.  A run that ends in the [Failed] state through an
    exception caught by the handler has sent the generic "problem occurred"
    acknowledgement, once and last, after the message that carries the
    exception's text and after whatever was sent before; a run that ends
    there through an input rejection (too many attachments, unsupported
    attachment type, no usable link) has sent the rejection's own reply
    and nothing else, so no generic acknowledgement. *)
Theorem C3_generic_ack_on_exception_only env event d tok x :
  fst (run env event d tok) = Ret x ->
  terminal x = StFailed ->
  let replies := sent (trace (snd (run env event d tok))) in
  match x with
  | Failed e =>
      (exists pre,
          replies = (pre ++ [msg_cause e; msg_problem (ev_ts event)])%list)
      /\ exactly_once (msg_problem (ev_ts event)) replies
  | Rejected k =>
      replies = [msg_rejection event k]
      /\ ~ In (msg_problem (ev_ts event)) replies
  | Done => False
  end.
Proof.
  intros Hr Ht replies.
  destruct (run_facts env event d tok) as (Hk & Hf & _).
  destruct x as [|k|e]; [discriminate Ht| |].
  - subst replies. rewrite (Hk k Hr). split; [reflexivity|].
    simpl. intros [H|[]]. now apply rejection_is_not_apology in H.
  - destruct (Hf e Hr) as [pre [Hs Hn]].
    subst replies. rewrite Hs. split; [now exists pre|].
    exists (pre ++ [msg_cause e])%list, [].
    split; [now rewrite <- app_assoc|].
    split; [|simpl; tauto].
    rewrite in_app_iff. simpl. intros [H|[H|[]]]; [auto|].
    destruct e; discriminate H.
Qed.

(** The theorem at work: the rejection of a mention with two attachments. *)
Lemma C3_generic_ack_on_exception_only_witness :
  sent (trace (snd (run quiet two_files [] None)))
  = [msg_rejection two_files TooManyAttachments]
  /\ ~ In (msg_problem (ev_ts two_files))
         (sent (trace (snd (run quiet two_files [] None)))).
Proof.
  apply (C3_generic_ack_on_exception_only quiet two_files [] None
           (Rejected TooManyAttachments)).
  - vm_compute. reflexivity.
  - reflexivity.
Defined.

(** ** C4: the "work started" acknowledgement and the download *)

(** C4, counterexample.  In the run of a mention with a served link, in a
    world where nothing fails, the GET is the fourth call of the trace and
    no "work started" reply comes before it. *)
Lemma C4_counterexample :
  ~ precedes (is_ack (ev_ts plain_mention)) is_download
      (trace (snd (run quiet plain_mention [] None))).
Proof.
  intros H.
  destruct (H 3 (HttpGet "https://files.example/plan.pdf" [], None)
              eq_refl I) as (j & x & Hj & Hx & Hack).
  destruct j as [|[|[|j]]]; [| | |lia];
    vm_compute in Hx; injection Hx as <-; exact Hack.
Qed.

(** C4, amended.  The controller runs the Acquirer first and issues the
    "work started" acknowledgement after it: in every run, each such reply
    comes after a GET that returned and after the write of the fetched
    bytes to the scratch path; and a successful run sends the
    acknowledgement exactly once. *)
Theorem C4_ack_after_download env event d tok :
  let tr := trace (snd (run env event d tok)) in
  precedes is_get (is_ack (ev_ts event)) tr
  /\ precedes is_written (is_ack (ev_ts event)) tr
  /\ (fst (run env event d tok) = Ret Done ->
      exactly_once (msg_working (ev_ts event)) (sent tr)).
Proof.
  intros tr.
  destruct (run_facts env event d tok) as (_ & _ & Hd & Hg & Hw).
  split; [now apply precedes_from_precedes|].
  split; [now apply precedes_from_precedes|].
  intros Hr. destruct (Hd Hr) as [link Hs].
  subst tr. rewrite Hs.
  exists [], [msg_success (ev_ts event) link].
  split; [reflexivity|].
  split; [simpl; tauto|].
  simpl. intros [H|[]]. discriminate H.
Qed.

(** The theorem at work: a successful run. *)
Lemma C4_ack_after_download_witness :
  exactly_once (msg_working (ev_ts plain_mention))
    (sent (trace (snd (run quiet plain_mention [] None)))).
Proof.
  apply (C4_ack_after_download quiet plain_mention [] None).
  vm_compute. reflexivity.
Defined.

(** ** C10: the name of the published file *)

Lemma prefix_split a u :
  String.prefix a u = true -> exists v, u = a ++ v.
Proof.
  revert u.
  induction a as [|c a IH]; intros u H.
  - now exists u.
  - destruct u as [|d u]; [discriminate H|].
    simpl in H. destruct (ascii_dec c d) as [->|]; [|discriminate H].
    destruct (IH u H) as [v ->]. now exists v.
Qed.

Lemma prefix_app a v : String.prefix a (a ++ v) = true.
Proof.
  induction a as [|c a IH]; simpl.
  - now destruct v.
  - destruct (ascii_dec c c); [exact IH | congruence].
Qed.

Lemma drop_add a b s : Py.drop (a + b) s = Py.drop b (Py.drop a s).
Proof.
  revert s.
  induction a as [|a IH]; intros s; [reflexivity|].
  destruct s; simpl; [now destruct b | apply IH].
Qed.

Lemma drop_next i s c t : Py.drop i s = String c t -> Py.drop (S i) s = t.
Proof.
  intros H. replace (S i) with (i + 1) by lia.
  rewrite drop_add, H. reflexivity.
Qed.

(** Two occurrences of [.pdf] do not overlap. *)
Lemma occurrences_apart s p q :
  occurs_at s p = true -> occurs_at s q = true -> p < q -> q < p + 4 -> False.
Proof.
  unfold occurs_at. intros Hp Hq Hlt Hnear.
  replace q with (p + (q - p)) in Hq by lia.
  rewrite drop_add in Hq.
  destruct (prefix_split _ _ Hp) as [v Hv]. rewrite Hv in Hq.
  assert (Hd : q - p = 1 \/ q - p = 2 \/ q - p = 3) by lia.
  destruct Hd as [Hd | [Hd | Hd]]; rewrite Hd in Hq; simpl in Hq;
    (destruct v; simpl in Hq; discriminate Hq).
Qed.

Lemma covered_inside s p i :
  occurs_at s p = true -> p <= i -> i < p + 4 -> covered s i = true.
Proof.
  intros Hp Hle Hlt. unfold covered.
  assert (Hd : i = p \/ i = p + 1 \/ i = p + 2 \/ i = p + 3) by lia.
  destruct Hd as [-> | [-> | [-> | ->]]].
  - now rewrite Hp.
  - replace (p + 1 - 1) with p by lia. rewrite Hp.
    replace (1 <=? p + 1)%nat with true by (symmetry; apply Nat.leb_le; lia).
    apply orb_true_iff. left. apply orb_true_iff. left.
    apply orb_true_iff. now right.
  - replace (p + 2 - 2) with p by lia. rewrite Hp.
    replace (2 <=? p + 2)%nat with true by (symmetry; apply Nat.leb_le; lia).
    apply orb_true_iff. left. apply orb_true_iff. now right.
  - replace (p + 3 - 3) with p by lia. rewrite Hp.
    replace (3 <=? p + 3)%nat with true by (symmetry; apply Nat.leb_le; lia).
    apply orb_true_iff. now right.
Qed.

Lemma covered_outside s i :
  (forall p, p <= i -> i < p + 4 -> occurs_at s p = false) ->
  covered s i = false.
Proof.
  intros H.
  assert (Hk : forall k, k <= 3 ->
                 ((k <=? i)%nat && occurs_at s (i - k)) = false).
  { intros k Hk. destruct (k <=? i)%nat eqn:Hle; [|reflexivity].
    apply Nat.leb_le in Hle. rewrite (H (i - k)) by lia. reflexivity. }
  unfold covered.
  rewrite (H i), (Hk 1), (Hk 2), (Hk 3) by lia.
  reflexivity.
Qed.

(** [covered] says what its name says. *)
Lemma covered_spec s i :
  covered s i = true <->
  exists p, p <= i /\ i < p + 4 /\ occurs_at s p = true.
Proof.
  split.
  - unfold covered. rewrite !orb_true_iff, !andb_true_iff, !Nat.leb_le.
    intros [[[H|[Hi H]]|[Hi H]]|[Hi H]];
      [exists i | exists (i - 1) | exists (i - 2) | exists (i - 3)];
      repeat split; try exact H; lia.
  - intros (p & Hle & Hlt & Hp). now apply (covered_inside s p i).
Qed.

Lemma replace_deletes s t :
  forall i skip,
    Py.drop i s = t -> scan_inv s i skip ->
    Py.replace_from ".pdf" "" skip t = uncovered_from s i t.
Proof.
  induction t as [|c t IH]; intros i skip Ht Hinv; [reflexivity|].
  pose proof (drop_next _ _ _ _ Ht) as Hnext.
  cbn [Py.replace_from uncovered_from].
  destruct skip as [|k].
  - rewrite <- Ht. fold (occurs_at s i).
    destruct (occurs_at s i) eqn:Hocc.
    + rewrite (covered_inside s i i Hocc) by lia.
      cbn [String.length Nat.sub append].
      apply IH; [exact Hnext|].
      split; [lia|]. exists i. split; [lia | exact Hocc].
    + rewrite covered_outside.
      * f_equal. apply IH; [exact Hnext|].
        intros p Hp Hnear.
        destruct (Nat.eq_dec p i) as [->|]; [exact Hocc|].
        apply Hinv; lia.
      * intros p Hp Hnear.
        destruct (Nat.eq_dec p i) as [->|]; [exact Hocc|].
        apply Hinv; lia.
  - destruct Hinv as [Hk [p [Hp Hocc]]].
    rewrite (covered_inside s p i Hocc) by lia.
    apply IH; [exact Hnext|].
    destruct k as [|k]; unfold scan_inv.
    + intros q Hq Hnear.
      destruct (occurs_at s q) eqn:Hoq; [|reflexivity].
      exfalso. apply (occurrences_apart s p q Hocc Hoq); lia.
    + split; [lia|]. exists p. split; [lia | exact Hocc].
Qed.

Lemma replace_pdf_spec s : Py.replace ".pdf" "" s = without_pdf s.
Proof.
  unfold Py.replace, without_pdf.
  apply replace_deletes; [reflexivity|].
  simpl. intros p Hp. lia.
Qed.

Lemma length_append a b :
  String.length (a ++ b) = String.length a + String.length b.
Proof. induction a; simpl; [reflexivity | now rewrite IHa]. Qed.

Lemma drop_append a b : Py.drop (String.length a) (a ++ b) = b.
Proof. induction a; simpl; [reflexivity | exact IHa]. Qed.

Lemma endswith_append a suf : Py.endswith suf (a ++ suf) = true.
Proof.
  unfold Py.endswith. rewrite length_append.
  replace (String.length a + String.length suf - String.length suf)
    with (String.length a) by lia.
  rewrite drop_append, String.eqb_refl.
  replace (String.length suf <=? String.length a + String.length suf)%nat
    with true by (symmetry; apply Nat.leb_le; lia).
  reflexivity.
Qed.

(** C10.  The name of the published file is the display name with every
    occurrence of [.pdf] deleted, wherever it stands, followed by
    [_cmp.pdf]: the characters kept are those of the display name that lie
    in no occurrence, and the result ends in [_cmp.pdf].  So a name with
    [.pdf] in its interior loses it, and a name taken from a link keeps
    its query string in front of the suffix. *)
Theorem C10_optimized_name name :
  optimized_name name = without_pdf name ++ "_cmp.pdf"
  /\ Py.endswith "_cmp.pdf" (optimized_name name) = true
  /\ optimized_name "site.pdf.plan.pdf" = "site.plan_cmp.pdf"
  /\ optimized_name "plan.pdf?dl=0" = "plan?dl=0_cmp.pdf".
Proof.
  unfold optimized_name. rewrite replace_pdf_spec.
  split; [reflexivity|].
  split; [apply endswith_append|].
  split; reflexivity.
Qed.

(** ** C8: folder resolution *)

Ltac innermost x :=
  lazymatch x with
  | context [match _ with _ => _ end] => fail
  | _ => idtac
  end.

Ltac split_case :=
  match goal with
  | |- context [match ?x with _ => _ end] => innermost x; destruct x eqn:?
  end.

Ltac unfold_upload :=
  cbv beta iota zeta delta
    [upload_to_drive get_drive_service resolve_folder files_list files_create
     permissions_create call bind ret raise ask get modify log set_drive
     set_token_file];
  cbn [trace drive token_file fst snd].

Lemma folder_creates_app tr1 tr2 :
  folder_creates (tr1 ++ tr2) = (folder_creates tr1 ++ folder_creates tr2)%list.
Proof.
  induction tr1 as [|[c o] t IH]; simpl; [reflexivity|].
  destruct c; try assumption.
  simpl. now rewrite IH.
Qed.

Lemma upload_parents_app tr1 tr2 :
  upload_parents (tr1 ++ tr2) = (upload_parents tr1 ++ upload_parents tr2)%list.
Proof.
  induction tr1 as [|[c o] t IH]; simpl; [reflexivity|].
  destruct c; try assumption.
  simpl. now rewrite IH.
Qed.

(** What a search answers with: the folders of that exact name that are
    not in the bin. *)
Lemma append_inv_tail a b s : a ++ s = b ++ s -> a = b.
Proof.
  revert b.
  induction a as [|c a IH]; intros [|d b] H; simpl in H.
  - reflexivity.
  - exfalso. apply (f_equal String.length) in H.
    simpl in H. rewrite length_append in H. lia.
  - exfalso. apply (f_equal String.length) in H.
    simpl in H. rewrite length_append in H. lia.
  - injection H as -> H. f_equal. now apply IH.
Qed.

Lemma folder_query_inj a b : folder_query a = folder_query b -> a = b.
Proof.
  unfold folder_query. intros H.
  simpl in H. injection H as H.
  now apply append_inv_tail in H.
Qed.

Lemma answers_spec name f :
  answers (folder_query name) f = true
  <-> df_name f = name /\ df_mime f = folder_mime /\ df_trashed f = false.
Proof.
  unfold answers. rewrite !andb_true_iff, !String.eqb_eq, negb_true_iff.
  split.
  - intros [[Hq Hm] Ht]. apply folder_query_inj in Hq. auto.
  - intros (-> & Hm & Ht). auto.
Qed.

Lemma answers_share q id f : answers q (share id f) = answers q f.
Proof. unfold share. now destruct (String.eqb (df_id f) id). Qed.

Lemma df_id_share id f : df_id (share id f) = df_id f.
Proof. unfold share. now destruct (String.eqb (df_id f) id). Qed.

Lemma filter_answers_share q id l :
  filter (answers q) (map (share id) l) = map (share id) (filter (answers q) l).
Proof.
  induction l as [|f l IH]; simpl; [reflexivity|].
  rewrite answers_share. destruct (answers q f); simpl; now rewrite IH.
Qed.

Lemma answers_pdf q id name ps :
  answers q (new_object id name "application/pdf" ps) = false.
Proof.
  unfold answers. simpl.
  change (String.eqb "application/pdf" folder_mime) with false.
  now rewrite andb_false_r.
Qed.

Lemma answers_new_folder name id :
  answers (folder_query name) (new_object id name folder_mime []) = true.
Proof. unfold answers. simpl. now rewrite !String.eqb_refl. Qed.

(** A successful [upload_to_drive]: the calls it made and the Drive it
    leaves. *)
Lemma upload_success p fn name env st link st1 :
  upload_to_drive p fn name env st = (Ret link, st1) ->
  let q := folder_query name in
  let found := filter (answers q) (drive st) in
  exists pre fid fileid,
    trace st1
    = (trace st ++ pre
       ++ (FilesList q, None)
          :: match found with
             | [] => [(FilesCreateFolder name, None)]
             | _ :: _ => []
             end
       ++ [(FilesCreateMedia fn [fid] p, None);
           (PermissionsCreate fileid, None)])%list
    /\ folder_creates pre = []
    /\ upload_parents pre = []
    /\ match found with
       | f :: _ => fid = df_id f
       | [] => True
       end
    /\ drive st1
       = map (share fileid)
           (drive st
            ++ match found with
               | [] => [new_object fid name folder_mime []]
               | _ :: _ => []
               end
            ++ [new_object fileid fn "application/pdf" [fid]]).
Proof.
  unfold_upload.
  repeat (split_case; unfold_upload; try discriminate);
    intros H; injection H as <- <-;
    rewrite <- ?app_assoc; cbn [app].
  - eexists [_; _], _, _. cbn [app trace drive]. repeat split.
  - eexists [_; _], _, _. cbn [app trace drive]. repeat split.
  - eexists [_; _; _], _, _. cbn [app trace drive]. repeat split.
  - eexists [_; _; _], _, _. cbn [app trace drive]. repeat split.
Qed.

(** With the folder on the Drive, [upload_to_drive] creates none and stores
    the file in the first one the search answers with. *)
Lemma upload_reuses_folder p fn name env st f rest :
  filter (answers (folder_query name)) (drive st) = f :: rest ->
  exists added,
    trace (snd (upload_to_drive p fn name env st)) = (trace st ++ added)%list
    /\ folder_creates added = []
    /\ (forall ps, In ps (upload_parents added) -> ps = [df_id f]).
Proof.
  intros Hf.
  unfold_upload. rewrite ?Hf.
  repeat (split_case; unfold_upload; rewrite ?Hf);
    rewrite <- ?app_assoc; cbn [app];
    (eexists; split; [reflexivity|]);
    (split; [reflexivity|]);
    cbn [upload_parents In]; intuition auto.
Qed.

(** C8.  Folder resolution searches first: the query asks for the objects
    named exactly as the destination folder that are folders and are not in
    the bin; a successful run reuses the first one found and asks for
    nothing to be created, and creates the folder, once, only when the
    search finds none.  It is idempotent: after a successful run, a second
    run for the same folder name on the Drive the first one left makes no
    folder-create call, whatever fails on its way, and stores its file in
    the folder the first run used. *)
Theorem C8_folder_resolution_idempotent
    env1 env2 st st2 p1 fn1 p2 fn2 name link st1 :
  upload_to_drive p1 fn1 name env1 st = (Ret link, st1) ->
  drive st2 = drive st1 ->
  let q := folder_query name in
  let found := filter (answers q) (drive st) in
  (forall f, In f found <->
             In f (drive st) /\ df_name f = name
             /\ df_mime f = folder_mime /\ df_trashed f = false)
  /\ exists pre fid fileid added2,
       trace st1
       = (trace st ++ pre
          ++ (FilesList q, None)
             :: match found with
                | [] => [(FilesCreateFolder name, None)]
                | _ :: _ => []
                end
          ++ [(FilesCreateMedia fn1 [fid] p1, None);
              (PermissionsCreate fileid, None)])%list
       /\ folder_creates pre = []
       /\ match found with
          | f0 :: _ => fid = df_id f0
          | [] => True
          end
       /\ trace (snd (upload_to_drive p2 fn2 name env2 st2))
          = (trace st2 ++ added2)%list
       /\ folder_creates added2 = []
       /\ (forall ps, In ps (upload_parents added2) -> ps = [fid]).
Proof.
  intros H1 H2 q found.
  split.
  { intros f. unfold found. rewrite filter_In. unfold q.
    rewrite answers_spec. tauto. }
  destruct (upload_success _ _ _ _ _ _ _ H1)
    as (pre & fid & fileid & Ht & Hc & _ & Hf & Hd).
  cbv zeta in Ht, Hf, Hd. fold q in Ht, Hf, Hd. fold found in Ht, Hf, Hd.
  assert (Hleft : exists f rest,
             filter (answers q) (drive st2) = f :: rest /\ df_id f = fid).
  { rewrite H2, Hd, filter_answers_share, !filter_app. cbn [filter].
    rewrite answers_pdf, app_nil_r.
    fold found. destruct found as [|f0 rest].
    - cbn [filter]. unfold q. rewrite answers_new_folder. cbn [app map].
      eexists _, _. split; [reflexivity|]. now rewrite df_id_share.
    - cbn [filter app map]. rewrite app_nil_r. cbn [map].
      eexists _, _. split; [reflexivity|]. now rewrite df_id_share. }
  destruct Hleft as (f & rest & Hfound2 & Hid).
  destruct (upload_reuses_folder p2 fn2 name env2 st2 f rest Hfound2)
    as (added2 & Ht2 & Hc2 & Hp2).
  exists pre, fid, fileid, added2.
  rewrite Hid in Hp2. auto 10.
Qed.

(** The theorem at work: a first upload for the folder [general] on an
    empty Drive, then a second one on the Drive the first one left. *)
Lemma C8_folder_resolution_idempotent_witness :
  let first := upload_to_drive "/tmp/original_cmp.pdf" "plan_cmp.pdf"
                 "general" quiet (start [] None) in
  let again := upload_to_drive "/tmp/original_cmp.pdf" "site_cmp.pdf"
                 "general" quiet
                 (start (drive (snd first)) (token_file (snd first))) in
  folder_creates (trace (snd again)) = [].
Proof.
  intros first again.
  destruct (C8_folder_resolution_idempotent quiet quiet (start [] None)
              (start (drive (snd first)) (token_file (snd first)))
              "/tmp/original_cmp.pdf" "plan_cmp.pdf"
              "/tmp/original_cmp.pdf" "site_cmp.pdf" "general"
              "https://drive.google.com/file/d/obj1/view"
              (snd first))
    as (_ & pre & fid & fileid & added2 & _ & _ & _ & Ht2 & Hc2 & _).
  - vm_compute. reflexivity.
  - reflexivity.
  - unfold again. rewrite Ht2. exact Hc2.
Defined.

(** ** C5: the link taken from the text *)

Lemma nonspace_run_split s :
  exists rest,
    s = Py.nonspace_run s ++ rest
    /\ Url.all_chars nonspace (Py.nonspace_run s) = true
    /\ (rest = "" \/ exists c r, rest = String c r /\ Py.isspace c = true).
Proof.
  induction s as [|c s (rest & Hs & Ha & Hr)]; simpl.
  - exists "". auto.
  - destruct (Py.isspace c) eqn:Hc.
    + exists (String c s).
      split; [reflexivity|]. split; [reflexivity|].
      right. exists c, s. auto.
    + exists rest. simpl. unfold nonspace at 1. rewrite Hc. simpl.
      rewrite <- Hs. auto.
Qed.

Lemma nonspace_run_app run rest :
  Url.all_chars nonspace run = true ->
  (rest = "" \/ exists c r, rest = String c r /\ Py.isspace c = true) ->
  Py.nonspace_run (run ++ rest) = run.
Proof.
  intros Ha Hr.
  induction run as [|c run IH]; simpl in *.
  - destruct Hr as [->|(c & r & -> & Hc)]; simpl; [reflexivity|].
    now rewrite Hc.
  - apply andb_true_iff in Ha. destruct Ha as [Hc Ha].
    unfold nonspace in Hc. apply negb_true_iff in Hc. rewrite Hc.
    now rewrite IH.
Qed.

Lemma match_here_spec s u : match_here s = Some u <-> url_at_start s u.
Proof.
  unfold match_here. split.
  - destruct (String.prefix "https://" s) eqn:H1.
    + destruct (prefix_split _ _ H1) as [v ->].
      change (Py.drop 8 ("https://" ++ v)) with v.
      destruct (nonspace_run_split v) as (rest & Hv & Ha & Hr).
      destruct (Py.nonspace_run v) as [|c r] eqn:Hrun; [discriminate|].
      intros [= <-].
      exists "https://", (String c r), rest.
      repeat split; auto; try discriminate.
      now rewrite <- Hv.
    + destruct (String.prefix "http://" s) eqn:H2; [|discriminate].
      destruct (prefix_split _ _ H2) as [v ->].
      change (Py.drop 7 ("http://" ++ v)) with v.
      destruct (nonspace_run_split v) as (rest & Hv & Ha & Hr).
      destruct (Py.nonspace_run v) as [|c r] eqn:Hrun; [discriminate|].
      intros [= <-].
      exists "http://", (String c r), rest.
      repeat split; auto; try discriminate.
      now rewrite <- Hv.
  - intros (sch & run & rest & Hsch & -> & -> & Hne & Ha & Hr).
    destruct Hsch as [-> | ->].
    + assert (Hp : String.prefix "https://" ("http://" ++ run ++ rest) = false).
      { destruct run as [|c run]; [contradiction|].
        simpl. destruct (ascii_dec "s" ":"); [discriminate | reflexivity]. }
      rewrite Hp, prefix_app.
      change (Py.drop 7 ("http://" ++ run ++ rest)) with (run ++ rest).
      rewrite nonspace_run_app by assumption.
      destruct run; [contradiction | reflexivity].
    + rewrite prefix_app.
      change (Py.drop 8 ("https://" ++ run ++ rest)) with (run ++ rest).
      rewrite nonspace_run_app by assumption.
      destruct run; [contradiction | reflexivity].
Qed.

Lemma no_url_in_empty i u : ~ url_at "" i u.
Proof.
  unfold url_at. replace (Py.drop i "") with "" by now destruct i.
  intros (sch & run & rest & [-> | ->] & _ & H & _); discriminate H.
Qed.

(** [extract_url] returns the leftmost match of the pattern. *)
Lemma extract_url_some text u :
  extract_url text = Some u <->
  exists i, url_at text i u /\ forall j u', j < i -> ~ url_at text j u'.
Proof.
  revert u.
  induction text as [|c t IH]; intros u.
  - split; [discriminate|].
    intros (i & H & _). now apply no_url_in_empty in H.
  - cbn [extract_url].
    destruct (match_here (String c t)) as [u0|] eqn:Hm.
    + split.
      * intros [= <-]. exists 0. split; [now apply match_here_spec|].
        intros j u' Hj. lia.
      * intros ([|i] & Hu & Hmin).
        -- apply match_here_spec in Hu. unfold Py.drop in Hu. congruence.
        -- exfalso. apply (Hmin 0 u0); [lia|]. now apply match_here_spec.
    + rewrite IH. split.
      * intros (i & Hu & Hmin). exists (S i). split; [exact Hu|].
        intros [|j] u' Hj Hu'.
        -- apply match_here_spec in Hu'. unfold Py.drop in Hu'. congruence.
        -- apply (Hmin j u'); [lia | exact Hu'].
      * intros ([|i] & Hu & Hmin).
        -- apply match_here_spec in Hu. unfold Py.drop in Hu. congruence.
        -- exists i. split; [exact Hu|].
           intros j u' Hj Hu'. apply (Hmin (S j) u'); [lia | exact Hu'].
Qed.

Lemma extract_url_none text :
  extract_url text = None <-> forall i u, ~ url_at text i u.
Proof.
  induction text as [|c t IH].
  - split; [intros _ i u; apply no_url_in_empty | reflexivity].
  - cbn [extract_url].
    destruct (match_here (String c t)) as [u0|] eqn:Hm.
    + split; [discriminate|].
      intros H. exfalso. apply (H 0 u0). now apply match_here_spec.
    + rewrite IH. split.
      * intros H [|i] u Hu.
        -- apply match_here_spec in Hu. unfold Py.drop in Hu. congruence.
        -- apply (H i u). exact Hu.
      * intros H i u Hu. apply (H (S i) u). exact Hu.
Qed.

(** [resolve] on an event without attachment, case by case. *)
Lemma resolve_of_text event env st :
  ev_files event = [] ->
  let url := extract_url (ev_text event) in
  let st1 := log st (Print ("extracted url:  " ++ str_of_option url)) None in
  resolve event env st
  = match url with
    | None => reject_link event env st1
    | Some u =>
        match is_pdf_url (check_bracketed_host env) u with
        | Ret true =>
            (Ret (inr {| file_url := Some u;
                         original_filename := Some (Py.last_segment "/" u) |}),
             st1)
        | Ret false => reject_link event env st1
        | Raise e => (Raise e, st1)
        end
    end.
Proof.
  intros Hf. unfold resolve, reject_link. rewrite Hf.
  unfold bind, emit, say, call, ask, lift, ret, raise.
  destruct (extract_url (ev_text event)) as [u|]; cbv zeta.
  - destruct (is_pdf_url (check_bracketed_host env) u) as [[|]|e];
      cbn [negb option_map]; try reflexivity.
    destruct (fault env _); reflexivity.
  - destruct (fault env _); reflexivity.
Qed.

Lemma is_pdf_url_accepted chk u :
  Url.check_netloc chk (Url.netloc (Url.components u)) = None ->
  is_pdf_url chk u = Ret (has_pdf_suffix u).
Proof.
  intros H. unfold is_pdf_url, Url.urlparse. now rewrite H.
Qed.

(** C5, counterexample.  The first link of the text ["<@B>
    https://[/plan.txt"] has the path [/plan.txt], which does not end in
    [.pdf]; its authority is a lone bracket, the parser raises, and the
    resolver leaves with [ValueError] instead of the "no usable link"
    rejection. *)
Lemma C5_counterexample :
  ~ (fst (resolve bracket_mention quiet (start [] None))
     = Ret (inl NoUsableLink)
     <-> no_usable_link (ev_text bracket_mention)).
Proof.
  intros [_ H].
  assert (Hn : no_usable_link (ev_text bracket_mention)).
  { right. exists "https://[/plan.txt". split; vm_compute; reflexivity. }
  apply H in Hn. vm_compute in Hn. discriminate Hn.
Qed.

(** C5, amended.  For an event with no attachment, the resolver selects
    the leftmost match of the pattern: the first place of the text where
    [http://] or [https://] is followed by at least one character that is
    not whitespace, taken with the whole run of such characters and as it
    stands.  When the parser accepts the selected link and the rejection
    reply is delivered, the request is rejected with "no usable link"
    exactly when there is no such match or the path of the selected link
    (what precedes its query, fragment and parameters) does not end in
    [.pdf], whatever the case; the rejection says the "not the right kind
    of link" reply, and a link that passes is the source, verbatim. *)
Theorem C5_first_link_decides env event st :
  ev_files event = [] ->
  fault env (1 + List.length (trace st)) = None ->
  (forall u, extract_url (ev_text event) = Some u ->
     Url.check_netloc (check_bracketed_host env)
       (Url.netloc (Url.components u)) = None) ->
  let text := ev_text event in
  let r := fst (resolve event env st) in
  match extract_url text with
  | Some u =>
      exists i, url_at text i u /\ forall j u', j < i -> ~ url_at text j u'
  | None => forall i u, ~ url_at text i u
  end
  /\ (r = Ret (inl NoUsableLink) <-> no_usable_link text)
  /\ (r = Ret (inl NoUsableLink) ->
      exists line,
        trace (snd (resolve event env st))
        = (trace st ++ [(Print line, None);
                        (Say (msg_wrong_link (ev_ts event)), None)])%list)
  /\ (forall u, extract_url text = Some u -> has_pdf_suffix u = true ->
      r = Ret (inr {| file_url := Some u;
                      original_filename := Some (Py.last_segment "/" u) |})).
Proof.
  intros Hf Hsay Hok text r.
  split.
  { destruct (extract_url text) as [u|] eqn:He.
    - now apply extract_url_some.
    - now apply extract_url_none. }
  assert (Hrej :
    forall st1, List.length (trace st1) = 1 + List.length (trace st) ->
      reject_link event env st1
      = (Ret (inl NoUsableLink),
         log st1 (Say (msg_wrong_link (ev_ts event))) None)).
  { intros st1 Hl. unfold reject_link. now rewrite Hl, Hsay. }
  subst r. rewrite (resolve_of_text event env st Hf). cbv zeta.
  fold text. unfold no_usable_link.
  destruct (extract_url text) as [u|] eqn:He.
  - rewrite (is_pdf_url_accepted _ _ (Hok u He)).
    destruct (has_pdf_suffix u) eqn:Hp.
    + cbn [fst snd]. split; [|split].
      * split; [discriminate|].
        intros [H|(u' & [= <-] & H)]; [discriminate | congruence].
      * discriminate.
      * intros u' [= <-] _. reflexivity.
    + rewrite Hrej by apply length_log. cbn [fst snd]. split; [|split].
      * split; [|reflexivity]. intros _. right. now exists u.
      * intros _. eexists. cbn [log trace].
        rewrite <- app_assoc. reflexivity.
      * intros u' [= <-] H. congruence.
  - rewrite Hrej by apply length_log. cbn [fst snd]. split; [|split].
    + split; [|reflexivity]. intros _. now left.
    + intros _. eexists. cbn [log trace].
      rewrite <- app_assoc. reflexivity.
    + discriminate.
Qed.

(** The theorem at work: a text with two links, the first one with an
    upper-case suffix and a query. *)
Lemma C5_first_link_decides_witness :
  fst (resolve mixed_case_mention quiet (start [] None))
  = Ret (inr {| file_url := Some "https://files.example/a/plan.PDF?rev=2";
                original_filename := Some "plan.PDF?rev=2" |}).
Proof.
  refine (proj2 (proj2 (proj2
            (C5_first_link_decides quiet mixed_case_mention (start [] None)
               _ _ _))) "https://files.example/a/plan.PDF?rev=2" _ _).
  - reflexivity.
  - reflexivity.
  - intros u H. vm_compute in H. injection H as <-. vm_compute. reflexivity.
  - vm_compute. reflexivity.
  - vm_compute. reflexivity.
Defined.

(** ** C6: the display filename *)

Lemma append_nil_r s : s ++ "" = s.
Proof. induction s; simpl; [reflexivity | now rewrite IHs]. Qed.

Lemma append_assoc a b c : (a ++ b) ++ c = a ++ b ++ c.
Proof. induction a; simpl; [reflexivity | now rewrite IHa]. Qed.

Lemma has_char_append c a b :
  Py.has_char c (a ++ b) = Py.has_char c a || Py.has_char c b.
Proof.
  induction a as [|d a IH]; simpl; [reflexivity|].
  now rewrite IH, orb_assoc.
Qed.

(** [last_segment] is the text after the last separator. *)
Lemma last_segment_from_spec c s :
  forall acc,
    Py.has_char c acc = false ->
    (Py.has_char c s = false -> Py.last_segment_from c acc s = acc ++ s)
    /\ (Py.has_char c s = true ->
        exists before,
          s = before ++ String c (Py.last_segment_from c acc s)
          /\ Py.has_char c (Py.last_segment_from c acc s) = false).
Proof.
  induction s as [|d t IH]; intros acc Hacc.
  - simpl. split; [intros _; now rewrite append_nil_r | discriminate].
  - cbn [Py.last_segment_from Py.has_char].
    destruct (Ascii.eqb c d) eqn:Hcd.
    + apply Ascii.eqb_eq in Hcd. subst d.
      split; [discriminate|]. intros _.
      destruct (IH "" eq_refl) as [Hno Hyes].
      destruct (Py.has_char c t) eqn:Ht.
      * destruct (Hyes eq_refl) as (b & Hb & Hr).
        exists (String c b). split; [|exact Hr].
        simpl. now rewrite <- Hb.
      * exists "". rewrite (Hno eq_refl). simpl. auto.
    + assert (Hacc' : Py.has_char c (acc ++ String d "") = false).
      { rewrite has_char_append, Hacc. simpl. now rewrite Hcd. }
      destruct (IH _ Hacc') as [Hno Hyes].
      cbn [orb]. split.
      * intros Ht. rewrite (Hno Ht), append_assoc. reflexivity.
      * intros Ht. destruct (Hyes Ht) as (b & Hb & Hr).
        exists (String d b). split; [|exact Hr].
        simpl. now rewrite <- Hb.
Qed.

Lemma last_segment_spec c s :
  Py.has_char c s = true ->
  exists before,
    s = before ++ String c (Py.last_segment c s)
    /\ Py.has_char c (Py.last_segment c s) = false.
Proof.
  intros H. now apply (last_segment_from_spec c s "" eq_refl).
Qed.

(** Whatever precedes a separator plays no part in the last segment. *)
Lemma last_segment_from_after c a b :
  forall acc,
    Py.last_segment_from c acc (a ++ String c b) = Py.last_segment_from c "" b.
Proof.
  induction a as [|d a IH]; intros acc; simpl.
  - now rewrite Ascii.eqb_refl.
  - destruct (Ascii.eqb c d); apply IH.
Qed.

Lemma until_delim_split run :
  run = fst (Url.until_delim run) ++ snd (Url.until_delim run)
  /\ (snd (Url.until_delim run) = ""
      \/ exists c r, snd (Url.until_delim run) = String c r
                     /\ (c = "/" \/ c = "?" \/ c = "#")%char).
Proof.
  induction run as [|c run [IH1 IH2]]; simpl; [auto|].
  destruct (Ascii.eqb c "/" || Ascii.eqb c "?" || Ascii.eqb c "#") eqn:Hc.
  - simpl. split; [reflexivity|]. right. exists c, run. split; [reflexivity|].
    rewrite !orb_true_iff, !Ascii.eqb_eq in Hc. tauto.
  - destruct (Url.until_delim run) as [a b]. simpl in *.
    split; [now rewrite <- IH1 | exact IH2].
Qed.

Lemma remove_unsafe_clean s :
  Url.all_chars nonspace s = true -> Url.remove_unsafe s = s.
Proof.
  induction s as [|c s IH]; simpl; [reflexivity|].
  intros H. apply andb_true_iff in H. destruct H as [Hc Hs].
  rewrite (IH Hs).
  unfold nonspace, Py.isspace in Hc.
  destruct (Nat.eqb_spec (nat_of_ascii c) 9) as [E|_];
    [rewrite E in Hc; discriminate Hc|].
  destruct (Nat.eqb_spec (nat_of_ascii c) 13) as [E|_];
    [rewrite E in Hc; discriminate Hc|].
  destruct (Nat.eqb_spec (nat_of_ascii c) 10) as [E|_];
    [rewrite E in Hc; discriminate Hc|].
  reflexivity.
Qed.

Lemma has_char_rest c run :
  Py.has_char c run = false ->
  Py.has_char c (snd (Url.until_delim run)) = false.
Proof.
  intros H. destruct (until_delim_split run) as [Hsplit _].
  rewrite Hsplit, has_char_append in H.
  now apply orb_false_iff in H.
Qed.

(** The path of a link without query, fragment or parameters is what
    follows its authority. *)
Lemma path_of_link sch run :
  sch = "http://" \/ sch = "https://" ->
  Url.all_chars nonspace run = true ->
  Py.has_char "?" run = false ->
  Py.has_char "#" run = false ->
  Py.has_char ";" run = false ->
  path_of (sch ++ run) = snd (Url.until_delim run).
Proof.
  intros Hsch Hn Hq Hf Hp.
  pose proof (has_char_rest _ _ Hq) as Hq'.
  pose proof (has_char_rest _ _ Hf) as Hf'.
  pose proof (has_char_rest _ _ Hp) as Hp'.
  unfold path_of, Url.components.
  destruct Hsch as [-> | ->].
  - replace (Url.lstrip_c0 ("http://" ++ run)) with ("http://" ++ run)
      by reflexivity.
    replace (Url.remove_unsafe ("http://" ++ run))
      with ("http://" ++ Url.remove_unsafe run) by reflexivity.
    rewrite (remove_unsafe_clean _ Hn).
    replace (Url.split_scheme ("http://" ++ run)) with ("http", "//" ++ run)
      by reflexivity.
    cbv beta iota. rewrite (prefix_app "//" run).
    change (Py.drop 2 ("//" ++ run)) with run.
    destruct (Url.until_delim run) as [loc rest]. cbn [snd] in *.
    rewrite Hf', Hq', Hp', andb_false_r. reflexivity.
  - replace (Url.lstrip_c0 ("https://" ++ run)) with ("https://" ++ run)
      by reflexivity.
    replace (Url.remove_unsafe ("https://" ++ run))
      with ("https://" ++ Url.remove_unsafe run) by reflexivity.
    rewrite (remove_unsafe_clean _ Hn).
    replace (Url.split_scheme ("https://" ++ run)) with ("https", "//" ++ run)
      by reflexivity.
    cbv beta iota. rewrite (prefix_app "//" run).
    change (Py.drop 2 ("//" ++ run)) with run.
    destruct (Url.until_delim run) as [loc rest]. cbn [snd] in *.
    rewrite Hf', Hq', Hp', andb_false_r. reflexivity.
Qed.

(** For such a link with a path, the text after the last [/] is the final
    segment of the path. *)
Lemma last_segment_of_link sch run :
  sch = "http://" \/ sch = "https://" ->
  Url.all_chars nonspace run = true ->
  Py.has_char "?" run = false ->
  Py.has_char "#" run = false ->
  Py.has_char ";" run = false ->
  path_of (sch ++ run) <> "" ->
  Py.last_segment "/" (sch ++ run) = final_path_segment (sch ++ run).
Proof.
  intros Hsch Hn Hq Hf Hp Hne.
  unfold final_path_segment.
  rewrite (path_of_link sch run Hsch Hn Hq Hf Hp) in *.
  destruct (until_delim_split run) as [Hsplit Hrest].
  pose proof (has_char_rest _ _ Hq) as Hq'.
  pose proof (has_char_rest _ _ Hf) as Hf'.
  destruct Hrest as [He|(c & r & Hr & Hc)]; [contradiction|].
  rewrite Hr in *.
  assert (c = "/"%char) as ->.
  { destruct Hc as [->|[->| ->]]; [reflexivity| |]; simpl in *; discriminate. }
  remember (fst (Url.until_delim run)) as loc.
  rewrite Hsplit.
  unfold Py.last_segment.
  rewrite <- append_assoc, last_segment_from_after.
  simpl. reflexivity.
Qed.

Lemma reject_link_not_source event env st1 src :
  fst (reject_link event env st1) <> Ret (inr src).
Proof. unfold reject_link. destruct (fault env _); discriminate. Qed.

(** The source [resolve] returns: for an attachment, its locator and
    declared name; for a link of the text, the link and, for a name, the
    text after the last [/] of the whole link, query string and fragment
    included, which is the final segment of the path when the link carries
    no query, fragment or parameters. *)
Lemma resolved_source env event st src :
  fst (resolve event env st) = Ret (inr src) ->
  source_of event src.
Proof.
  unfold source_of.
  destruct (ev_files event) as [|f fs] eqn:Hfiles.
  - rewrite (resolve_of_text event env st Hfiles). cbv zeta.
    destruct (extract_url (ev_text event)) as [u|] eqn:He;
      [|intros H; now apply reject_link_not_source in H].
    destruct (is_pdf_url (check_bracketed_host env) u) as [[|]|e] eqn:Hpdf;
      [|intros H; now apply reject_link_not_source in H|discriminate].
    cbn [fst]. intros [= <-].
    apply extract_url_some in He.
    destruct He as (i & (sch & run & rest & Hsch & Hu & _ & _ & Hn & _) & _).
    assert (Hslash : Py.has_char "/" u = true).
    { rewrite Hu, has_char_append.
      destruct Hsch as [-> | ->]; reflexivity. }
    destruct (last_segment_spec "/" u Hslash) as (before & Hb & Hseg).
    exists u, (Py.last_segment "/" u), before.
    repeat split; try assumption; try reflexivity.
    intros Hq Hf Hp.
    assert (Hrun : forall c, Py.has_char c u = false ->
                             Py.has_char c run = false).
    { intros c Hc. rewrite Hu, has_char_append in Hc.
      now apply orb_false_iff in Hc. }
    rewrite Hu. apply last_segment_of_link; auto.
    rewrite <- Hu. intros Hempty.
    unfold is_pdf_url, Url.urlparse in Hpdf.
    destruct (Url.check_netloc _ _); [discriminate|].
    injection Hpdf as Hpdf. fold (path_of u) in Hpdf.
    rewrite Hempty in Hpdf. discriminate Hpdf.
  - unfold resolve. rewrite Hfiles.
    unfold bind, say, call, ret.
    destruct (1 <? _)%nat.
    + destruct (fault env _); discriminate.
    + destruct (negb _).
      * destruct (fault env _); discriminate.
      * cbn [fst]. intros [= <-]. split; reflexivity.
Qed.

Example resolved_source_of_mixed_case_mention :
  source_of mixed_case_mention
    {| file_url := Some "https://files.example/a/plan.PDF?rev=2";
       original_filename := Some "plan.PDF?rev=2" |}.
Proof.
  apply (resolved_source quiet mixed_case_mention (start [] None)).
  vm_compute. reflexivity.
Qed.

(** C6.  The specification takes, for a link, the final segment of its
    path, without the query string.  Line 180 splits the whole link at
    [/]: for [https://files.example/docs/plan.pdf?dl=1], whose path ends in
    the segment [plan.pdf], the display filename is [plan.pdf?dl=1], and the
    file is published as [plan?dl=1_cmp.pdf]. *)
Theorem C6_query_kept_in_name :
  let link := "https://files.example/docs/plan.pdf?dl=1" in
  fst (resolve query_mention quiet (start [] None))
  = Ret (inr {| file_url := Some link;
                original_filename := Some "plan.pdf?dl=1" |})
  /\ final_path_segment link = "plan.pdf"
  /\ is_pdf_url (fun _ => None) link = Ret true
  /\ optimized_name "plan.pdf?dl=1" = "plan?dl=1_cmp.pdf".
Proof. repeat split. Qed.

(** * Further properties of the code *)

(** ** [download_file] *)

(** [replace] leaves a text without occurrence as it is. *)
Lemma replace_absent old new s :
  Py.contains old s = false -> Py.replace old new s = s.
Proof.
  unfold Py.replace.
  induction s as [|c t IH]; intros H; [reflexivity|].
  cbn [Py.contains] in H. apply orb_false_iff in H. destruct H as [Hp Ht].
  cbn [Py.replace_from]. rewrite Hp, (IH Ht). reflexivity.
Qed.

(** Passing over the characters of an occurrence. *)
Lemma replace_from_skip old new a rest :
  Py.replace_from old new (String.length a) (a ++ rest)
  = Py.replace_from old new 0 rest.
Proof.
  induction a as [|c a IH]; [reflexivity|].
  cbn [String.length append Py.replace_from]. exact IH.
Qed.

(** An occurrence at the head is replaced and the scan goes on after it. *)
Lemma replace_at_head old new rest :
  old <> "" ->
  Py.replace old new (old ++ rest) = new ++ Py.replace old new rest.
Proof.
  intros Hne. unfold Py.replace.
  destruct old as [|c old]; [contradiction|].
  cbn [append Py.replace_from].
  change (String c (old ++ rest)) with (String c old ++ rest).
  rewrite prefix_app.
  replace (String.length (String c old) - 1) with (String.length old)
    by (cbn [String.length]; lia).
  now rewrite replace_from_skip.
Qed.

Lemma contains_after needle a b :
  Py.contains needle b = true -> Py.contains needle (a ++ b) = true.
Proof.
  intros H. induction a as [|c a IH]; [exact H|].
  cbn [append Py.contains]. rewrite IH. apply orb_true_r.
Qed.

Lemma contains_at_head needle rest : Py.contains needle (needle ++ rest) = true.
Proof.
  destruct (needle ++ rest) eqn:E; cbn [Py.contains];
    rewrite <- E, prefix_app; reflexivity.
Qed.

(** [www.dropbox.com] links: the host is rewritten and what follows it is
    kept, as long as it holds neither of the two texts line 45 looks for. *)
Lemma fetched_dropbox_host rest :
  Py.contains "www.dropbox.com" rest = false ->
  Py.contains "?d1=0" rest = false ->
  fetched ("https://www.dropbox.com" ++ rest)
  = "https://dl.dropboxusercontent.com" ++ rest.
Proof.
  intros Hw Hq. unfold fetched.
  assert (Hd : Py.contains "dropbox.com" ("https://www.dropbox.com" ++ rest) = true).
  { change ("https://www.dropbox.com" ++ rest)
      with ("https://www." ++ ("dropbox.com" ++ rest)).
    apply contains_after, contains_at_head. }
  assert (Hq' : Py.contains "?d1=0" ("https://www.dropbox.com" ++ rest) = false).
  { cbn. exact Hq. }
  assert (Hstep : forall t,
    Py.replace "www.dropbox.com" "dl.dropboxusercontent.com" ("https://" ++ t)
    = "https://" ++ Py.replace "www.dropbox.com" "dl.dropboxusercontent.com" t).
  { intros t. unfold Py.replace. cbn. reflexivity. }
  remember ("https://www.dropbox.com" ++ rest) as u eqn:Hu.
  rewrite Hd, (replace_absent "?d1=0" "?d1=1" u Hq').
  subst u.
  change ("https://www.dropbox.com" ++ rest)
    with ("https://" ++ ("www.dropbox.com" ++ rest)).
  rewrite Hstep, replace_at_head by discriminate.
  rewrite (replace_absent _ _ _ Hw). reflexivity.
Qed.


(** X2.  A [https://www.dropbox.com] link is fetched from
    [https://dl.dropboxusercontent.com] with everything after the host as
    it stands, when what follows the host holds neither [www.dropbox.com]
    nor [?d1=0]. *)
Theorem X2_dropbox_host_rewritten rest path env st :
  Py.contains "www.dropbox.com" rest = false ->
  Py.contains "?d1=0" rest = false ->
  let direct := "https://dl.dropboxusercontent.com" ++ rest in
  gets (trace (snd (download_file (Some ("https://www.dropbox.com" ++ rest))
                      path env st)))
  = (gets (trace st)
     ++ [(direct, bearer_if env (Py.contains "slack.com" direct))])%list.
Proof.
  intros Hw Hq direct.
  rewrite download_file_request. unfold headers_for, bearer_if.
  rewrite (fetched_dropbox_host rest Hw Hq). reflexivity.
Qed.

(** The theorem at work: a shared file. *)
Lemma X2_dropbox_host_rewritten_witness :
  gets (trace (snd (download_file
                      (Some "https://www.dropbox.com/s/abc/plan.pdf?dl=0")
                      "/tmp/original.pdf" quiet (start [] None))))
  = [("https://dl.dropboxusercontent.com/s/abc/plan.pdf?dl=0", [])].
Proof.
  apply (X2_dropbox_host_rewritten "/s/abc/plan.pdf?dl=0" "/tmp/original.pdf"
           quiet (start [] None)).
  - vm_compute. reflexivity.
  - vm_compute. reflexivity.
Defined.

(** X3.  A locator that does not hold [dropbox.com], or holds neither
    [www.dropbox.com] nor [?d1=0], is fetched as it stands. *)
Theorem X3_other_locators_unmodified url path env st :
  Py.contains "dropbox.com" url = false
  \/ (Py.contains "www.dropbox.com" url = false
      /\ Py.contains "?d1=0" url = false) ->
  gets (trace (snd (download_file (Some url) path env st)))
  = (gets (trace st)
     ++ [(url, bearer_if env (Py.contains "slack.com" url))])%list.
Proof.
  intros H.
  assert (Hf : fetched url = url).
  { unfold fetched. destruct H as [-> | [Hw Hq]]; [reflexivity|].
    destruct (Py.contains "dropbox.com" url); [|reflexivity].
    now rewrite (replace_absent _ _ _ Hq), (replace_absent _ _ _ Hw). }
  rewrite download_file_request. unfold headers_for, bearer_if.
  rewrite Hf. reflexivity.
Qed.

(** The theorem at work: an attachment of the chat platform. *)
Lemma X3_other_locators_unmodified_witness :
  gets (trace (snd (download_file
                      (Some "https://files.slack.com/files-pri/T1-F1/a.pdf")
                      "/tmp/original.pdf" quiet (start [] None))))
  = [("https://files.slack.com/files-pri/T1-F1/a.pdf",
      [("Authorization", "Bearer xoxb-bot-token")])].
Proof.
  apply (X3_other_locators_unmodified
           "https://files.slack.com/files-pri/T1-F1/a.pdf"
           "/tmp/original.pdf" quiet (start [] None)).
  left. vm_compute. reflexivity.
Defined.

(** ** [extract_url] and [is_pdf_url] *)

Lemma all_chars_append p a b :
  Url.all_chars p (a ++ b) = Url.all_chars p a && Url.all_chars p b.
Proof.
  induction a as [|c a IH]; simpl; [reflexivity|].
  now rewrite IH, andb_assoc.
Qed.

(** X4.  What [extract_url] returns holds no whitespace, and
    [extract_url] finds it again, whole, when given it alone. *)
Theorem X4_extract_url_fixed_point text u :
  extract_url text = Some u ->
  extract_url u = Some u /\ Url.all_chars nonspace u = true.
Proof.
  intros H. apply extract_url_some in H.
  destruct H as (i & (sch & run & rest & Hsch & Hu & _ & Hne & Hn & _) & _).
  assert (Hm : match_here u = Some u).
  { apply match_here_spec. exists sch, run, "".
    rewrite append_nil_r. auto 10. }
  split.
  - destruct u; cbn [extract_url]; now rewrite Hm.
  - rewrite Hu, all_chars_append, Hn.
    destruct Hsch as [-> | ->]; reflexivity.
Qed.

(** The theorem at work: a link between other words. *)
Lemma X4_extract_url_fixed_point_witness :
  extract_url "https://files.example/a/plan.pdf"
  = Some "https://files.example/a/plan.pdf"
  /\ Url.all_chars nonspace "https://files.example/a/plan.pdf" = true.
Proof.
  apply (X4_extract_url_fixed_point
           "see https://files.example/a/plan.pdf for the plans").
  vm_compute. reflexivity.
Defined.









(** ** [handle_mentions]: what a request that is turned down costs *)

Lemma work_app tr1 tr2 : work (tr1 ++ tr2) = (work tr1 ++ work tr2)%list.
Proof. apply filter_app. Qed.

Ltac no_work := cbn [app]; rewrite ?app_nil_r; reflexivity.

Lemma folder_name_of_idle event :
  wp (folder_name_of event) (fun _ tr => work tr = []).
Proof. unfold folder_name_of. wp_run; no_work. Qed.

Lemma resolve_idle event : wp (resolve event) (fun _ tr => work tr = []).
Proof. unfold resolve. wp_run; no_work. Qed.

Lemma on_exception_idle event e :
  wp (on_exception event e)
     (fun r tr => work tr = [] /\ forall k, r <> Ret (Rejected k)).
Proof.
  unfold on_exception.
  destruct e; wp_run; (split; [no_work | discriminate]).
Qed.

(** The body of the [try]: a rejection has done no work. *)
Lemma pipeline_rejected_idle event :
  wp (pipeline event)
     (fun r tr => forall k, r = Ret (Rejected k) -> work tr = []).
Proof.
  unfold pipeline.
  apply wp_bind.
  eapply wp_conseq; [apply folder_name_of_idle|].
  cbv beta. intros [name|e] tr1 H1; [|discriminate].
  apply wp_bind.
  eapply wp_conseq; [apply resolve_idle|].
  cbv beta. intros [[k|src]|e] tr2 H2; [| |discriminate].
  - apply wp_ret. intros k' _.
    now rewrite !work_app, H1, H2.
  - apply wp_bind.
    eapply wp_conseq; [apply process_spec|].
    cbv beta. intros [[]|e] tr3 _; [|discriminate].
    apply wp_ret. discriminate.
Qed.

(** X6.  A run that ends with a rejection (too many attachments,
    unsupported attachment type, no usable link) has fetched nothing,
    written nothing, compressed nothing and not touched the Drive. *)
Theorem X6_rejection_does_no_work env event d tok k :
  fst (run env event d tok) = Ret (Rejected k) ->
  work (trace (snd (run env event d tok))) = [].
Proof.
  assert (H : wp (handle_mentions event)
                 (fun r tr => forall k, r = Ret (Rejected k) -> work tr = [])).
  { unfold handle_mentions.
    apply wp_bind, wp_emit. cbv beta iota.
    apply wp_try.
    eapply wp_conseq; [apply pipeline_rejected_idle|].
    cbv beta. intros [x|e] tr Hp.
    - intros k' Hk. cbn [app]. apply (Hp k' Hk).
    - eapply wp_conseq; [apply on_exception_idle|].
      cbv beta. intros r tr2 [_ Hr] k' Hk. now destruct (Hr k'). }
  destruct (H env (start d tok)) as [tr [Ht Hw]].
  unfold run. rewrite Ht. cbn [start trace app]. apply Hw.
Qed.

(** The theorem at work: a text without link. *)
Lemma X6_rejection_does_no_work_witness :
  work (trace (snd (run quiet (mention "<@B> shrink this please" []) [] None)))
  = [].
Proof.
  apply (X6_rejection_does_no_work quiet
           (mention "<@B> shrink this please" []) [] None NoUsableLink).
  vm_compute. reflexivity.
Defined.

Ltac unfold_handler :=
  cbv beta iota zeta delta
    [run handle_mentions pipeline on_exception resolve folder_name_of
     say call emit bind ret raise try_except ask lift start log];
  cbn [trace drive token_file fst snd List.length app negb].

Ltac run_cases := unfold_handler; repeat (split_case; unfold_handler).

(** X7.  A mention with more than one attachment, or with one attachment
    whose declared type is not [pdf], is turned down on its attachments
    alone: whatever fails, nothing is fetched, written, compressed or sent
    to the Drive; and when the name lookup and the reply go through, the
    run ends with that rejection and its reply is the only one. *)
Theorem X7_attachments_turned_down env event d tok k :
  attachment_verdict (ev_files event) = Some k ->
  work (trace (snd (run env event d tok))) = []
  /\ (fault env 1 = None -> fault env 2 = None ->
      fst (run env event d tok) = Ret (Rejected k)
      /\ sent (trace (snd (run env event d tok))) = [msg_rejection event k]).
Proof.
  intros Hv.
  destruct (ev_files event) as [|f [|f2 fs]] eqn:Hfiles;
    cbn [attachment_verdict] in Hv; [discriminate Hv| |].
  - destruct (option_eqb (fi_filetype f) (Some "pdf")) eqn:Hpdf;
      [discriminate Hv|]. injection Hv as <-.
    unfold_handler. rewrite Hfiles. cbn [List.length Nat.ltb Nat.leb].
    rewrite Hpdf.
    run_cases; (split; [reflexivity|]); intros H1 H2;
      try congruence; split; reflexivity.
  - injection Hv as <-.
    unfold_handler. rewrite Hfiles. cbn [List.length Nat.ltb Nat.leb].
    run_cases; (split; [reflexivity|]); intros H1 H2;
      try congruence; split; reflexivity.
Qed.

(** The theorem at work: two attachments. *)
Lemma X7_attachments_turned_down_witness :
  work (trace (snd (run quiet two_files [] None))) = []
  /\ fst (run quiet two_files [] None) = Ret (Rejected TooManyAttachments)
  /\ sent (trace (snd (run quiet two_files [] None)))
     = [msg_rejection two_files TooManyAttachments].
Proof.
  destruct (X7_attachments_turned_down quiet two_files [] None
              TooManyAttachments eq_refl) as [Hw Hr].
  split; [exact Hw|]. apply Hr; reflexivity.
Defined.

(** ** [handle_mentions]: the name lookup *)

(** X8.  The name lookup comes before the input is looked at: when it
    raises, the request fails with that exception whatever the event
    carries (no rejection reply, nothing fetched), and the user gets the
    message with the exception's text followed by the generic one. *)
Theorem X8_lookup_failure_fails_request env event d tok e :
  fault env 1 = Some e ->
  let out := run env event d tok in
  nth_error (trace (snd out)) 1 = Some (lookup_call event, Some e)
  /\ work (trace (snd out)) = []
  /\ (fault env 3 = None -> fault env 4 = None ->
      fst out = Ret (Failed e)
      /\ sent (trace (snd out)) = [msg_cause e; msg_problem (ev_ts event)]).
Proof.
  intros He. cbv zeta. unfold lookup_call.
  unfold_handler.
  destruct (String.prefix "D" (ev_channel event)); unfold_handler;
    rewrite He; unfold_handler;
    destruct e; unfold_handler;
    repeat (split_case; unfold_handler);
    (split; [reflexivity|]); (split; [reflexivity|]);
    intros H3 H4; try congruence; split; reflexivity.
Qed.

(** The theorem at work: Slack refuses the lookup and nothing else. *)
Lemma X8_lookup_failure_fails_request_witness :
  let env := world (fun k => if (k =? 1)%nat
                             then Some (SlackApiError "channel_not_found")
                             else None) in
  fst (run env two_files [] None)
  = Ret (Failed (SlackApiError "channel_not_found"))
  /\ sent (trace (snd (run env two_files [] None)))
     = [msg_cause (SlackApiError "channel_not_found");
        msg_problem (ev_ts two_files)].
Proof.
  intros env.
  refine (proj2 (proj2 (X8_lookup_failure_fails_request env two_files [] None
                          (SlackApiError "channel_not_found") _)) _ _);
    reflexivity.
Defined.

(** ** [upload_to_drive] and [get_drive_service] *)

(** A successful [upload_to_drive], with its link: as [upload_success]. *)
Lemma upload_outcome p fn name env st link st1 :
  upload_to_drive p fn name env st = (Ret link, st1) ->
  exists fid fileid,
    link = view_link fileid
    /\ (exists pre mid,
          trace st1
          = (trace st ++ pre ++ (FilesList (folder_query name), None) :: mid
             ++ [(FilesCreateMedia fn [fid] p, None);
                 (PermissionsCreate fileid, None)])%list)
    /\ drive st1
       = map (share fileid)
           (drive st
            ++ match filter (answers (folder_query name)) (drive st) with
               | [] => [new_object fid name folder_mime []]
               | _ :: _ => []
               end
            ++ [new_object fileid fn "application/pdf" [fid]])
    /\ match filter (answers (folder_query name)) (drive st) with
       | f :: _ => fid = df_id f
       | [] => True
       end.
Proof.
  unfold_upload.
  repeat (split_case; unfold_upload; try discriminate);
    intros H; injection H as <- <-;
    rewrite <- ?app_assoc; cbn [app trace drive];
    eexists _, _; (split; [reflexivity|]);
    (split; [|split; reflexivity]).
  - eexists [_; _], [_]. reflexivity.
  - eexists [_; _], []. reflexivity.
  - eexists [_; _; _], [_]. reflexivity.
  - eexists [_; _; _], []. reflexivity.
Qed.

Lemma share_new_object id name mime ps :
  share id (new_object id name mime ps)
  = {| df_id := id; df_name := name; df_mime := mime; df_parents := ps;
       df_trashed := false; df_anyone_reader := true |}.
Proof. unfold share, new_object. cbn. now rewrite String.eqb_refl. Qed.

Lemma identity_share id f : identity (share id f) = identity f.
Proof. unfold share, identity. now destruct (String.eqb (df_id f) id). Qed.

Lemma map_identity_share id l :
  map identity (map (share id) l) = map identity l.
Proof.
  rewrite map_map. apply map_ext. intros f. apply identity_share.
Qed.

(** The uploaded object is on the Drive, shared. *)
Lemma drive_has_published d extra fileid fn fid :
  In (published fileid fn fid)
    (map (share fileid)
       (d ++ extra ++ [new_object fileid fn "application/pdf" [fid]])).
Proof.
  apply in_map_iff.
  exists (new_object fileid fn "application/pdf" [fid]).
  split; [apply share_new_object|].
  rewrite !in_app_iff. right. right. simpl. auto.
Qed.

(** The destination folder is on the Drive: the one found, or the one
    created. *)
Lemma drive_has_folder d name fid fileid rest :
  match filter (answers (folder_query name)) d with
  | f :: _ => fid = df_id f
  | [] => True
  end ->
  exists folder,
    In folder
      (map (share fileid)
         (d ++ match filter (answers (folder_query name)) d with
               | [] => [new_object fid name folder_mime []]
               | _ :: _ => []
               end ++ rest))
    /\ df_id folder = fid /\ df_name folder = name
    /\ df_mime folder = folder_mime /\ df_trashed folder = false.
Proof.
  intros Hf.
  destruct (filter (answers (folder_query name)) d) as [|f0 others] eqn:Hfound.
  - exists (share fileid (new_object fid name folder_mime [])).
    split.
    { apply in_map. rewrite !in_app_iff. right. left. simpl. auto. }
    unfold share. destruct (String.eqb _ _); cbn; auto.
  - assert (Hin : In f0 (filter (answers (folder_query name)) d))
      by (rewrite Hfound; simpl; auto).
    apply filter_In in Hin. destruct Hin as [Hin Ha].
    apply answers_spec in Ha. destruct Ha as (Hn & Hm & Htr).
    exists (share fileid f0).
    split.
    { apply in_map. rewrite !in_app_iff. left. exact Hin. }
    subst fid.
    unfold share. destruct (String.eqb _ _); cbn; auto.
Qed.

(** X10.  When [upload_to_drive] returns, its link is the view link of the
    object it created; that object is on the Drive under the given
    filename, as a PDF, inside the destination folder, readable by anyone
    with the link; the folder is there under the destination name, not in
    the bin; and the permission was asked for after the upload, last. *)
Theorem X10_upload_publishes p fn name env st link st1 :
  upload_to_drive p fn name env st = (Ret link, st1) ->
  exists fid fileid,
    link = view_link fileid
    /\ In (published fileid fn fid) (drive st1)
    /\ (exists folder,
          In folder (drive st1) /\ df_id folder = fid
          /\ df_name folder = name /\ df_mime folder = folder_mime
          /\ df_trashed folder = false)
    /\ (exists before,
          trace st1
          = (before ++ [(FilesCreateMedia fn [fid] p, None);
                        (PermissionsCreate fileid, None)])%list).
Proof.
  intros H.
  destruct (upload_outcome _ _ _ _ _ _ _ H)
    as (fid & fileid & Hl & (pre & mid & Ht) & Hd & Hf).
  exists fid, fileid.
  split; [exact Hl|].
  split; [rewrite Hd; apply drive_has_published|].
  split; [rewrite Hd; apply drive_has_folder, Hf|].
  eexists. rewrite Ht.
  rewrite !app_assoc. rewrite app_comm_cons.
  rewrite !app_assoc. reflexivity.
Qed.

(** The theorem at work: a first upload for the folder [general] on an
    empty Drive. *)
Lemma X10_upload_publishes_witness :
  let out := upload_to_drive "/tmp/original_cmp.pdf" "plan_cmp.pdf" "general"
               quiet (start [] None) in
  exists fid fileid,
    "https://drive.google.com/file/d/obj1/view" = view_link fileid
    /\ In (published fileid "plan_cmp.pdf" fid) (drive (snd out)).
Proof.
  intros out.
  destruct (X10_upload_publishes "/tmp/original_cmp.pdf" "plan_cmp.pdf"
              "general" quiet (start [] None)
              "https://drive.google.com/file/d/obj1/view" (snd out))
    as (fid & fileid & Hl & Hin & _).
  - vm_compute. reflexivity.
  - exists fid, fileid. split; assumption.
Defined.

(** X11.  Whatever its outcome, [upload_to_drive] only adds to the Drive:
    the objects that were there keep their identifier, name, type, parents
    and place outside or inside the bin, in the same order, and at most two
    objects (the folder and the file) are new, neither of them in the
    bin. *)
Theorem X11_upload_only_adds p fn name env st :
  let st1 := snd (upload_to_drive p fn name env st) in
  exists added,
    map identity (drive st1) = map identity (drive st ++ added)
    /\ List.length added <= 2
    /\ Forall (fun f => df_trashed f = false) added.
Proof.
  cbv zeta. unfold_upload.
  repeat (split_case; unfold_upload);
    cbn [drive snd];
    rewrite ?map_identity_share, <- ?app_assoc; cbn [app];
    first [ exists []; rewrite app_nil_r; split; [reflexivity|]
          | eexists [_]; split; [reflexivity|]
          | eexists [_; _]; split; [reflexivity|] ];
    (split; [cbn [List.length]; lia|]);
    repeat constructor.
Qed.

Lemma flows_app tr1 tr2 : flows (tr1 ++ tr2) = (flows tr1 ++ flows tr2)%list.
Proof. apply filter_app. Qed.

(** X12.  [get_drive_service] and the stored token.  With a token file
    present the interactive authorization is not started and the file is
    left as it is.  Without one, a call that returns has run the
    authorization and stored its credentials under [token.json].  After
    any call that returned, the token file is present, so that a later
    call, in whatever world, starts no authorization.  The Drive is not
    touched. *)
Theorem X12_token_stored_and_reused env st :
  let out := get_drive_service env st in
  (forall t, token_file st = Some t ->
     flows (trace (snd out)) = flows (trace st)
     /\ token_file (snd out) = Some t)
  /\ (token_file st = None -> fst out = Ret tt ->
      token_file (snd out) = Some (creds_json env)
      /\ In (RunLocalServerFlow (GOOGLE_CLIENT_SECRET env), None)
           (trace (snd out))
      /\ In (WriteFile TOKEN_PATH (creds_json env), None) (trace (snd out)))
  /\ (fst out = Ret tt ->
      token_file (snd out) <> None
      /\ forall env',
           flows (trace (snd (get_drive_service env' (snd out))))
           = flows (trace (snd out)))
  /\ drive (snd out) = drive st.
Proof.
  cbv zeta.
  assert (Hreuse : forall env' st' t, token_file st' = Some t ->
            flows (trace (snd (get_drive_service env' st'))) = flows (trace st')
            /\ token_file (snd (get_drive_service env' st')) = Some t).
  { intros env' st' t Ht.
    unfold get_drive_service, bind, get, call, ask, modify, ret.
    rewrite Ht.
    repeat (split_case; cbn [fst snd trace token_file log]);
      rewrite ?flows_app; cbn [flows filter fst]; rewrite ?app_nil_r; auto. }
  split; [intros t Ht; apply (Hreuse env st t Ht)|].
  assert (Hstored : fst (get_drive_service env st) = Ret tt ->
                    token_file (snd (get_drive_service env st)) <> None).
  { unfold get_drive_service, bind, get, call, ask, modify, ret.
    destruct (token_file st) eqn:Ht;
      repeat (split_case;
              cbn [fst snd trace token_file log set_token_file]);
      try discriminate; intros _; rewrite ?Ht; discriminate. }
  split; [|split].
  - intros Ht.
    unfold get_drive_service, bind, get, call, ask, modify, ret.
    rewrite Ht.
    repeat (split_case;
            cbn [fst snd trace token_file log set_token_file]);
      try discriminate; intros _.
    split; [reflexivity|].
    rewrite !in_app_iff. cbn [In]. split; auto 8.
  - intros Hr. split; [exact (Hstored Hr)|].
    intros env'.
    destruct (token_file (snd (get_drive_service env st))) as [t|] eqn:Ht.
    + apply (Hreuse env' _ t Ht).
    + now destruct (Hstored Hr).
  - unfold get_drive_service, bind, get, call, ask, modify, ret.
    repeat (split_case;
            cbn [fst snd trace token_file drive log set_token_file]);
      reflexivity.
Qed.

(** ** [handle_mentions]: the run that goes through *)

Lemma bind_ret {A B} (m : M A) (k : A -> M B) env st a st1 :
  m env st = (Ret a, st1) -> bind m k env st = k a env st1.
Proof. intros H. unfold bind. now rewrite H. Qed.

Lemma call_returns env st c :
  fault env (List.length (trace st)) = None ->
  call c env st = (Ret tt, log st c None).
Proof. intros H. unfold call. now rewrite H. Qed.

Lemma folder_name_of_clean env st event :
  (forall n, fault env n = None) ->
  folder_name_of event env st
  = (Ret (folder_name env event), log st (lookup_call event) None).
Proof.
  intros Hf. unfold folder_name_of, folder_name, lookup_call.
  destruct (String.prefix "D" (ev_channel event));
    (erewrite bind_ret; [|apply call_returns, Hf]); reflexivity.
Qed.

Lemma download_file_clean env st url path :
  (forall n, fault env n = None) -> served env url ->
  download_file (Some url) path env st
  = (Ret tt,
     log (log st (HttpGet (fetched url) (headers_for env url)) None)
       (WriteFile path (snd (http_response env (fetched url)))) None).
Proof.
  intros Hf Hs. unfold served in Hs.
  unfold download_file, headers_for. fold (fetched url).
  unfold bind, ask, call, ret, raise.
  rewrite !Hf. rewrite Hs. rewrite !Hf. reflexivity.
Qed.

Lemma upload_clean env st p fn name :
  (forall n, fault env n = None) ->
  exists link st1, upload_to_drive p fn name env st = (Ret link, st1).
Proof.
  intros Hf. unfold_upload.
  repeat (first [rewrite !Hf | split_case]; unfold_upload);
    eexists _, _; reflexivity.
Qed.

Lemma upload_to_drive_silent a b c :
  wp (upload_to_drive a b c) (fun _ tr => said tr = [] /\ gets tr = []).
Proof.
  unfold upload_to_drive, get_drive_service, resolve_folder, files_list,
    files_create, permissions_create.
  wp_run; split; reflexivity.
Qed.

Lemma resolve_single_pdf env st event f :
  ev_files event = [f] -> fi_filetype f = Some "pdf" ->
  resolve event env st
  = (Ret (inr {| file_url := fi_url_private_download f;
                 original_filename := fi_name f |}), st).
Proof.
  intros Hfiles Htype. unfold resolve. rewrite Hfiles, Htype.
  reflexivity.
Qed.

(** X9.  A mention with one PDF attachment, in a world where no call fails
    and the download is served: the handler ends in [Done]; the bytes of
    the response were written to the scratch path, compressed by the one
    Ghostscript command, and published under the optimized name in the
    folder named after the channel (or the user, in a direct message); and
    exactly two replies were delivered, the "work started" one and the one
    with the view link of the published object. *)
Theorem X9_clean_run_publishes env event d tok f url name :
  (forall n, fault env n = None) ->
  ev_files event = [f] ->
  fi_filetype f = Some "pdf" ->
  fi_url_private_download f = Some url ->
  fi_name f = Some name ->
  served env url ->
  exists st fid fileid,
    run env event d tok = (Ret Done, st)
    /\ sent (trace st)
       = [msg_working (ev_ts event);
          msg_success (ev_ts event) (view_link fileid)]
    /\ gets (trace st) = [(fetched url, headers_for env url)]
    /\ In (WriteFile "/tmp/original.pdf"
             (snd (http_response env (fetched url))), None) (trace st)
    /\ In (gs_command, None) (trace st)
    /\ In (FilesCreateMedia (optimized_name name) [fid]
             "/tmp/original_cmp.pdf", None) (trace st)
    /\ In (published fileid (optimized_name name) fid) (drive st)
    /\ (exists folder,
          In folder (drive st) /\ df_id folder = fid
          /\ df_name folder = folder_name env event
          /\ df_mime folder = folder_mime /\ df_trashed folder = false).
Proof.
  intros Hf Hfiles Htype Hurl Hname Hs.
  set (st0 := log (start d tok) (LogInfo "app_mention received") None).
  set (st1 := log st0 (lookup_call event) None).
  set (st2 := log (log st1 (HttpGet (fetched url) (headers_for env url)) None)
                (WriteFile "/tmp/original.pdf"
                   (snd (http_response env (fetched url)))) None).
  set (st3 := log st2 (Say (msg_working (ev_ts event))) None).
  set (st4 := log st3 gs_command None).
  destruct (upload_clean env st4 "/tmp/original_cmp.pdf" (optimized_name name)
              (folder_name env event) Hf) as (link & st5 & Hup).
  destruct (upload_outcome _ _ _ _ _ _ _ Hup)
    as (fid & fileid & Hl & (pre & mid & Ht) & Hd & Hfound).
  assert (Hpub : In (published fileid (optimized_name name) fid) (drive st5))
    by (rewrite Hd; apply drive_has_published).
  assert (Hfolder : exists folder,
            In folder (drive st5) /\ df_id folder = fid
            /\ df_name folder = folder_name env event
            /\ df_mime folder = folder_mime /\ df_trashed folder = false)
    by (rewrite Hd; apply drive_has_folder, Hfound).
  destruct (upload_to_drive_silent "/tmp/original_cmp.pdf"
              (optimized_name name) (folder_name env event) env st4)
    as (added & Hadd & Hmute & Hgets).
  rewrite Hup in Hadd. cbn [snd] in Hadd.
  set (st6 := log st5 (Say (msg_success (ev_ts event) link)) None).
  assert (Hproc : process event (folder_name env event)
                    {| file_url := Some url; original_filename := Some name |}
                    env st1
                  = (Ret tt, st6)).
  { unfold process. cbn [original_filename file_url].
    rewrite (bind_ret _ _ _ _ (optimized_name name) st1) by reflexivity.
    rewrite (bind_ret _ _ _ _ _ _ (download_file_clean env st1 url _ Hf Hs)).
    unfold say.
    rewrite (bind_ret _ _ _ _ _ _ (call_returns env st2 _ (Hf _))).
    rewrite (bind_ret _ _ _ _ tt st4)
      by (unfold optimize_pdf; apply call_returns, Hf).
    rewrite (bind_ret _ _ _ _ _ _ Hup).
    apply call_returns, Hf. }
  assert (Hrun : run env event d tok = (Ret Done, st6)).
  { unfold run, handle_mentions, emit, try_except.
    rewrite (bind_ret _ _ _ _ tt st0) by reflexivity.
    unfold pipeline.
    rewrite (bind_ret _ _ _ _ _ _ (folder_name_of_clean env st0 event Hf)).
    rewrite (bind_ret _ _ _ _ _ _
               (resolve_single_pdf env st1 event f Hfiles Htype)).
    rewrite Hname, Hurl.
    rewrite (bind_ret _ _ _ _ _ _ Hproc).
    reflexivity. }
  assert (Hlast : trace st6
                  = (trace st5
                     ++ [(Say (msg_success (ev_ts event) link), None)])%list)
    by reflexivity.
  assert (Htr : trace st6
                = ((LogInfo "app_mention received", None)
                   :: (lookup_call event, None)
                   :: [(HttpGet (fetched url) (headers_for env url), None);
                       (WriteFile "/tmp/original.pdf"
                          (snd (http_response env (fetched url))), None);
                       (Say (msg_working (ev_ts event)), None);
                       (gs_command, None)]
                   ++ added
                   ++ [(Say (msg_success (ev_ts event) link), None)])%list).
  { rewrite Hlast, Hadd. reflexivity. }
  exists st6, fid, fileid.
  split; [exact Hrun|].
  split.
  { rewrite Htr, <- Hl. unfold lookup_call, gs_command.
    destruct (String.prefix "D" (ev_channel event));
      cbn [app sent]; rewrite sent_app, (mute_sent _ Hmute); reflexivity. }
  split.
  { rewrite Htr. unfold lookup_call, gs_command.
    destruct (String.prefix "D" (ev_channel event));
      cbn [app gets]; rewrite gets_app, Hgets; reflexivity. }
  split; [rewrite Htr; cbn [In app]; auto 8|].
  split; [rewrite Htr; cbn [In app]; auto 8|].
  split.
  { rewrite Hlast, Ht. repeat (rewrite in_app_iff || cbn [In]). auto 10. }
  split; [exact Hpub|exact Hfolder].
Qed.

(** The theorem at work: a plan attached in the channel. *)
Lemma X9_clean_run_publishes_witness :
  exists st fileid,
    run quiet
      (mention "<@B>"
         [attachment "pdf" "plan.pdf"
            "https://files.slack.com/files-pri/T1-F1/download/plan.pdf"])
      [] None
    = (Ret Done, st)
    /\ sent (trace st)
       = [msg_working "1355517523.000005";
          msg_success "1355517523.000005" (view_link fileid)].
Proof.
  destruct (X9_clean_run_publishes quiet
              (mention "<@B>"
                 [attachment "pdf" "plan.pdf"
                    "https://files.slack.com/files-pri/T1-F1/download/plan.pdf"])
              [] None
              (attachment "pdf" "plan.pdf"
                 "https://files.slack.com/files-pri/T1-F1/download/plan.pdf")
              "https://files.slack.com/files-pri/T1-F1/download/plan.pdf"
              "plan.pdf")
    as (st & fid & fileid & Hrun & Hsent & _);
    try reflexivity.
  exists st, fileid. split; assumption.
Defined.

(** ** [handle_mentions]: the order of the stages *)

Lemma milestones_app tr1 tr2 :
  milestones (tr1 ++ tr2) = (milestones tr1 ++ milestones tr2)%list.
Proof. apply filter_app. Qed.

Lemma in_order_above n l y :
  in_order n l = true -> In y l -> n < stage_of y.
Proof.
  revert n. induction l as [|x t IH]; intros n H Hin; [destruct Hin|].
  cbn [in_order] in H.
  apply andb_prop in H. destruct H as [H Ht].
  apply andb_prop in H. destruct H as [Hn _].
  apply Nat.ltb_lt in Hn.
  destruct Hin as [<-|Hin]; [exact Hn|].
  specialize (IH _ Ht Hin). lia.
Qed.

Lemma in_order_sound n l i j x y :
  in_order n l = true -> i < j ->
  nth_error l i = Some x -> nth_error l j = Some y ->
  snd x = None /\ stage_of x < stage_of y.
Proof.
  revert n i j. induction l as [|z t IH]; intros n i j H Hij Hx Hy.
  - destruct i; discriminate Hx.
  - cbn [in_order] in H.
    apply andb_prop in H. destruct H as [H Ht].
    apply andb_prop in H. destruct H as [_ Hlast].
    destruct j as [|j]; [lia|]. cbn [nth_error] in Hy.
    destruct i as [|i].
    + cbn [nth_error] in Hx. injection Hx as ->.
      split.
      * destruct (snd x); [|reflexivity].
        destruct t; [destruct j; discriminate Hy|discriminate Hlast].
      * apply (in_order_above _ t); [exact Ht|].
        apply nth_error_In with j. exact Hy.
    + cbn [nth_error] in Hx. apply (IH _ i j Ht); [lia|assumption..].
Qed.

Ltac no_milestone := cbn [app]; rewrite ?app_nil_r; reflexivity.

Lemma folder_name_of_aside event :
  wp (folder_name_of event) (fun _ tr => milestones tr = []).
Proof. unfold folder_name_of. wp_run; no_milestone. Qed.

Lemma resolve_aside event : wp (resolve event) (fun _ tr => milestones tr = []).
Proof. unfold resolve. wp_run; no_milestone. Qed.

Lemma on_exception_aside event e :
  wp (on_exception event e) (fun _ tr => milestones tr = []).
Proof. unfold on_exception. destruct e; wp_run; no_milestone. Qed.

Lemma process_in_order event name src :
  wp (process event name src)
     (fun _ tr => in_order 0 (milestones tr) = true).
Proof.
  unfold process, download_file, optimize_pdf, upload_to_drive,
    get_drive_service, resolve_folder, files_list, files_create,
    permissions_create.
  wp_run; reflexivity.
Qed.

Lemma pipeline_in_order event :
  wp (pipeline event) (fun _ tr => in_order 0 (milestones tr) = true).
Proof.
  unfold pipeline.
  apply wp_bind.
  eapply wp_conseq; [apply folder_name_of_aside|].
  cbv beta. intros [name|e] tr1 H1; [|now rewrite H1].
  apply wp_bind.
  eapply wp_conseq; [apply resolve_aside|].
  cbv beta. intros [[k|src]|e] tr2 H2.
  - apply wp_ret. now rewrite !milestones_app, H1, H2.
  - apply wp_bind.
    eapply wp_conseq; [apply process_in_order|].
    cbv beta. intros [[]|e] tr3 H3.
    + apply wp_ret. now rewrite !milestones_app, H1, H2, app_nil_r.
    + now rewrite !milestones_app, H1, H2.
  - now rewrite !milestones_app, H1, H2.
Qed.

Lemma handle_mentions_in_order event :
  wp (handle_mentions event)
     (fun _ tr => in_order 0 (milestones tr) = true).
Proof.
  unfold handle_mentions.
  apply wp_bind, wp_emit. cbv beta iota.
  apply wp_try.
  eapply wp_conseq; [apply pipeline_in_order|].
  cbv beta. intros [x|e] tr Hp.
  - exact Hp.
  - eapply wp_conseq; [apply on_exception_aside|].
    cbv beta. intros r tr2 H2.
    rewrite !milestones_app, H2, app_nil_r. exact Hp.
Qed.

(** X13.  The pipeline runs in one order and stops at the first call that
    raises.  Of any two of its calls in the trace of a run, the earlier one
    returned and belongs to an earlier stage: download, write to the
    scratch path, "work started" reply, Ghostscript, credentials, token
    file, service, folder search, folder creation, upload, permission,
    reply with the link.  So no stage runs twice, none runs before the one
    in front of it has returned, and nothing of the pipeline runs after a
    failure. *)
Theorem X13_stages_in_order env event d tok i j x y :
  i < j ->
  nth_error (milestones (trace (snd (run env event d tok)))) i = Some x ->
  nth_error (milestones (trace (snd (run env event d tok)))) j = Some y ->
  snd x = None /\ stage_of x < stage_of y.
Proof.
  destruct (handle_mentions_in_order event env (start d tok))
    as [tr [Ht Ho]].
  unfold run. rewrite Ht. cbn [start trace app].
  apply in_order_sound with (n := 0). exact Ho.
Qed.

(** The theorem at work: the download and the Ghostscript run of a served
    link. *)
Lemma X13_stages_in_order_witness :
  let x := (HttpGet "https://files.example/plan.pdf" [], None) in
  let y := (gs_command, None) in
  snd x = None /\ stage_of x < stage_of y.
Proof.
  intros x y.
  apply (X13_stages_in_order quiet plain_mention [] None 0 3 x y).
  - lia.
  - reflexivity.
  - reflexivity.
Defined.

(** ** [handle_mentions]: an attachment without name or link *)

Ltac unfold_process :=
  cbv beta iota zeta delta
    [run handle_mentions pipeline on_exception resolve folder_name_of process
     download_file say call emit bind ret raise try_except ask lift start
     log];
  cbn [trace drive token_file fst snd List.length app negb
       original_filename file_url].

(** X14.  A PDF attachment whose descriptor lacks [name] or
    [url_private_download] ([dict.get] gives [None]) makes the handler
    fail inside Python, before any request: nothing is fetched, written,
    compressed or sent to the Drive, and when Slack takes the lookup and
    the replies the user gets the text of an [AttributeError] (no name) or
    of a [TypeError] (a name, no link), followed by the generic reply. *)
Theorem X14_attachment_without_name_or_link env event d tok f :
  ev_files event = [f] ->
  fi_filetype f = Some "pdf" ->
  fi_name f = None \/ fi_url_private_download f = None ->
  let out := run env event d tok in
  work (trace (snd out)) = []
  /\ (fault env 1 = None -> fault env 3 = None -> fault env 4 = None ->
      exists text,
        let e := PyError (match fi_name f with
                          | None => "AttributeError"
                          | Some _ => "TypeError"
                          end) text in
        fst out = Ret (Failed e)
        /\ sent (trace (snd out)) = [msg_unexpected e; msg_problem (ev_ts event)]).
Proof.
  intros Hfiles Htype Hnone. cbv zeta.
  unfold_process. rewrite Hfiles.
  change (1 <? List.length [f])%nat with false.
  rewrite Htype. cbn [option_eqb]. rewrite String.eqb_refl.
  unfold_process.
  destruct (fi_name f) as [n|] eqn:Hn.
  - destruct Hnone as [Hnone|Hnone]; [discriminate Hnone|].
    rewrite Hnone.
    repeat (split_case; unfold_process);
      (split; [reflexivity|]); intros H1 H3 H4; try congruence;
      eexists; split; reflexivity.
  - repeat (split_case; unfold_process);
      (split; [reflexivity|]); intros H1 H3 H4; try congruence;
      eexists; split; reflexivity.
Qed.

(** The theorem at work: a descriptor with its type and nothing else. *)
Lemma X14_attachment_without_name_or_link_witness :
  let bare := {| fi_filetype := Some "pdf";
                 fi_url_private_download := None; fi_name := None |} in
  work (trace (snd (run quiet (mention "<@B>" [bare]) [] None))) = [].
Proof.
  intros bare.
  refine (proj1 (X14_attachment_without_name_or_link quiet
                   (mention "<@B>" [bare]) [] None bare _ _ _)).
  - reflexivity.
  - reflexivity.
  - left. reflexivity.
Defined.

(** ** [handle_mentions]: a link the parser refuses *)

(** X15.  [urlparse] raises on some links (an authority with one square
    bracket, for one).  Such a first link is not turned down as "not the
    right kind of link": the exception reaches the [except] clause, so the
    request fails with the parser's message, followed by the generic
    reply; nothing is fetched, written, compressed or sent to the
    Drive. *)
Theorem X15_refused_link_fails_request env event d tok u e :
  ev_files event = [] ->
  extract_url (ev_text event) = Some u ->
  is_pdf_url (check_bracketed_host env) u = Raise e ->
  let out := run env event d tok in
  work (trace (snd out)) = []
  /\ ~ In (msg_wrong_link (ev_ts event)) (said (trace (snd out)))
  /\ (fault env 1 = None -> fault env 4 = None -> fault env 5 = None ->
      fst out = Ret (Failed e)
      /\ sent (trace (snd out)) = [msg_cause e; msg_problem (ev_ts event)]).
Proof.
  intros Hfiles Hu He. cbv zeta.
  unfold_process. rewrite Hfiles, Hu. unfold_process. rewrite He.
  unfold_process.
  repeat (split_case; unfold_process);
    (split; [reflexivity|]);
    (split; [cbn [said In]; intuition discriminate|]);
    intros H1 H4 H5; try congruence; split; reflexivity.
Qed.

(** The theorem at work: a link whose authority opens a bracket. *)
Lemma X15_refused_link_fails_request_witness :
  let event := mention "<@B> https://[files/plan.pdf" [] in
  let e := PyError "ValueError" "Invalid IPv6 URL" in
  fst (run quiet event [] None) = Ret (Failed e)
  /\ sent (trace (snd (run quiet event [] None)))
     = [msg_cause e; msg_problem (ev_ts event)].
Proof.
  intros event e.
  refine (proj2 (proj2 (X15_refused_link_fails_request quiet event [] None
                          "https://[files/plan.pdf" e _ _ _)) _ _ _);
    reflexivity.
Defined.

(** ** [handle_mentions]: a download that is answered with an error *)



(** ** [handle_mentions]: [Done] and the reply with the link *)

Ltac no_success H :=
  cbn [app sent] in H; rewrite ?sent_app in H; cbn [sent] in H;
  repeat match goal with
         | Hs : sent _ = [] |- _ => rewrite Hs in H
         end;
  cbn [app In] in H;
  repeat match type of H with
         | _ \/ _ => destruct H as [H|H]
         | False => destruct H
         | _ = _ => discriminate H
         end.

Lemma process_link_last event folder src :
  wp (process event folder src)
     (fun r tr => forall link,
        In (msg_success (ev_ts event) link) (sent tr) -> r = Ret tt).
Proof.
  unfold process.
  wp_stages;
    repeat match goal with
           | H : said ?t = [] |- _ =>
               lazymatch goal with
               | _ : sent t = [] |- _ => fail
               | _ => pose proof (mute_sent _ H)
               end
           end;
    intros link Hin; try reflexivity; no_success Hin.
Qed.

Lemma resolve_no_link event :
  wp (resolve event)
     (fun _ tr => forall link, ~ In (msg_success (ev_ts event) link) (sent tr)).
Proof.
  unfold resolve.
  wp_run; intros link Hin; no_success Hin.
Qed.

Lemma on_exception_no_link event e :
  wp (on_exception event e)
     (fun r tr => (forall link,
                     ~ In (msg_success (ev_ts event) link) (sent tr))
                  /\ r <> Ret Done).
Proof.
  unfold on_exception.
  destruct e; wp_run; (split; [|discriminate]);
    intros link Hin; no_success Hin.
Qed.

Ltac link_cases Hin :=
  cbn [app sent] in Hin; rewrite ?app_nil_r in Hin;
  rewrite ?sent_app in Hin;
  repeat match goal with
         | Hs : sent _ = [] |- _ => rewrite Hs in Hin
         end;
  cbn [app] in Hin; rewrite ?in_app_iff in Hin;
  repeat match type of Hin with
         | _ \/ _ => destruct Hin as [Hin|Hin]
         end.

Lemma handle_mentions_link_last event :
  wp (handle_mentions event)
     (fun r tr => forall link,
        In (msg_success (ev_ts event) link) (sent tr) -> r = Ret Done).
Proof.
  unfold handle_mentions.
  apply wp_bind, wp_emit. cbv beta iota.
  apply wp_try.
  unfold pipeline.
  apply wp_bind.
  eapply wp_conseq; [apply folder_name_of_spec|].
  cbv beta. intros [folder|e] tr1 H1; pose proof (mute_sent _ H1) as Hs1.
  - apply wp_bind.
    eapply wp_conseq; [apply resolve_no_link|].
    cbv beta. intros [[k|src]|e] tr2 H2.
    + apply wp_ret. intros link Hin. link_cases Hin.
      now destruct (H2 link).
    + apply wp_bind.
      eapply wp_conseq; [apply process_link_last|].
      cbv beta. intros [[]|e] tr3 H3.
      * apply wp_ret. reflexivity.
      * eapply wp_conseq; [apply on_exception_no_link|].
        cbv beta. intros r tr4 [H4 _] link Hin. link_cases Hin.
        -- now destruct (H2 link).
        -- discriminate (H3 link Hin).
        -- now destruct (H4 link).
    + eapply wp_conseq; [apply on_exception_no_link|].
      cbv beta. intros r tr4 [H4 _] link Hin. link_cases Hin.
      * now destruct (H2 link).
      * now destruct (H4 link).
  - eapply wp_conseq; [apply on_exception_no_link|].
    cbv beta. intros r tr4 [H4 _] link Hin. link_cases Hin.
    now destruct (H4 link).
Qed.

(** X17.  The handler ends in [Done] exactly when the reply with the link
    was delivered: a run that delivered it cannot end as a failure or a
    rejection, and a run that ends in [Done] has delivered it. *)
Theorem X17_done_iff_link_delivered env event d tok :
  fst (run env event d tok) = Ret Done
  <-> exists link,
        In (msg_success (ev_ts event) link)
          (sent (trace (snd (run env event d tok)))).
Proof.
  split.
  - intros Hd.
    destruct (run_facts env event d tok) as (_ & _ & Hdone & _).
    destruct (Hdone Hd) as [link Hs].
    exists link. rewrite Hs. cbn [In]. auto.
  - intros [link Hin].
    destruct (handle_mentions_link_last event env (start d tok))
      as [tr [Ht Hl]].
    unfold run in *. rewrite Ht in Hin. cbn [start trace app] in Hin.
    apply (Hl link Hin).
Qed.

(** ** [optimized_name]: the usual names *)

Lemma prefix_pdf_grown c t :
  String.prefix ".pdf" (String c t) = false ->
  String.prefix ".pdf" (String c t ++ ".pdf") = false.
Proof.
  cbn [append String.prefix].
  destruct (ascii_dec "." c); [|reflexivity].
  destruct t as [|c2 t]; [reflexivity|].
  cbn [append String.prefix].
  destruct (ascii_dec "p" c2); [|reflexivity].
  destruct t as [|c3 t]; [reflexivity|].
  cbn [append String.prefix].
  destruct (ascii_dec "d" c3); [|reflexivity].
  destruct t as [|c4 t]; [reflexivity|].
  cbn [append String.prefix].
  destruct (ascii_dec "f" c4); [|reflexivity].
  destruct t; discriminate.
Qed.

Lemma replace_pdf_suffix stem :
  Py.contains ".pdf" stem = false ->
  Py.replace ".pdf" "" (stem ++ ".pdf") = stem.
Proof.
  unfold Py.replace.
  induction stem as [|c t IH]; intros H; [reflexivity|].
  cbn [Py.contains] in H. apply orb_false_iff in H. destruct H as [Hp Ht].
  pose proof (prefix_pdf_grown c t Hp) as Hg.
  cbn [append] in Hg |- *. cbn [Py.replace_from]. rewrite Hg, (IH Ht).
  reflexivity.
Qed.

(** X18.  For a name that holds [.pdf] nowhere but at its end, the
    published name is the stem with [_cmp.pdf]; for a name that does not
    hold [.pdf] at all (no extension, or one in capitals) it is the whole
    name with [_cmp.pdf]. *)
Theorem X18_optimized_name_of_usual_names stem :
  Py.contains ".pdf" stem = false ->
  optimized_name (stem ++ ".pdf") = stem ++ "_cmp.pdf"
  /\ optimized_name stem = stem ++ "_cmp.pdf".
Proof.
  intros H. unfold optimized_name.
  now rewrite replace_pdf_suffix, replace_absent.
Qed.

(** The theorem at work: an extension in capitals. *)
Lemma X18_optimized_name_of_usual_names_witness :
  optimized_name "SITE PLAN.PDF.pdf" = "SITE PLAN.PDF_cmp.pdf"
  /\ optimized_name "SITE PLAN.PDF" = "SITE PLAN.PDF_cmp.pdf".
Proof.
  apply (X18_optimized_name_of_usual_names "SITE PLAN.PDF"). reflexivity.
Defined.
